(** * is-deep-equal: the recursive comparator [deepEqualCore]

    A shallow embedding of [src/core/deep-equal-core.ts] (the comparator
    behind [isDeepEqual]) over a small model of the JavaScript values it
    inspects: primitives, a heap of objects addressed by reference, and the
    [WeakMap] ledger used for cycle detection. *)

From Stdlib Require Import DecimalString DecimalNat DecimalFacts.
#[local] Set Warnings "-register-all".
From stdpp Require Import gmap strings list.

Open Scope string_scope.
Open Scope nat_scope.
Open Scope list_scope.

(** ** Numbers

    JavaScript numbers are IEEE doubles.  The comparator only tests them with
    [===] and takes the reciprocal of a zero, so the model keeps what those
    two operations observe: not-a-number, the two zeros, the two infinities,
    and the remaining finite numbers as signed fractions. *)

Inductive number :=
| NaN
| Zero (negative : bool)
| Infinity (negative : bool)
| Frac (negative : bool) (numer denom : positive).

Definition pos_zero : number := Zero false.
Definition neg_zero : number := Zero true.

Definition of_nat (n : nat) : number :=
  match n with
  | O => pos_zero
  | S m => Frac false (Pos.of_succ_nat m) 1
  end.

(** [x === y] on numbers. *)
Definition number_eq (x y : number) : bool :=
  match x, y with
  | Zero _, Zero _ => true
  | Infinity s, Infinity s' => bool_decide (s = s')
  | Frac s n d, Frac s' n' d' => bool_decide (s = s') && (n * d' =? n' * d)%positive
  | _, _ => false
  end.

(** [1 / x]. *)
Definition reciprocal (x : number) : number :=
  match x with
  | NaN => NaN
  | Zero s => Infinity s
  | Infinity s => Zero s
  | Frac s n d => Frac s d n
  end.

(** [x <= k] for a natural constant [k]. *)
Definition number_le_nat (x : number) (k : nat) : bool :=
  match x with
  | NaN => false
  | Zero _ => true
  | Infinity s => s
  | Frac s n d => s || (n <=? Pos.of_nat k * d)%positive && negb (k =? 0)%nat
  end.

Definition is_nan (x : number) : bool :=
  match x with NaN => true | _ => false end.

(** ** Values and objects *)

Abbreviation loc := nat (only parsing).

Inductive typed_kind :=
| Int8 | Uint8 | Uint8Clamped | Int16 | Uint16 | Int32 | Uint32 | Float32 | Float64.

(** Function objects the comparator can meet: the built-in constructors, the
    prototype methods it looks up, and functions defined by the caller.
    [FnSubError id] is the constructor of a subclass of [Error]: [TypeError],
    [RangeError] and the like, or a class of the caller that extends
    [Error]. *)
Inductive func :=
| FnObject | FnArray | FnRegExp | FnDate | FnArrayBuffer | FnTypedArray (k : typed_kind)
| FnString | FnNumber | FnBoolean | FnError | FnSet | FnMap
| FnObject_valueOf | FnString_valueOf | FnNumber_valueOf | FnBoolean_valueOf
| FnDate_valueOf | FnDate_getTime
| FnUser (id : nat)
| FnSubError (id : nat).

Inductive value :=
| VUndefined
| VNull
| VBool (b : bool)
| VNum (n : number)
| VStr (s : string)
| VBigInt (z : Z)
| VSymbol (id : nat)
| VFun (f : func)
| VObj (l : loc).

(** The objects of the heap, by the internal slots they carry.  Only plain
    objects hold caller-defined properties.  [OPlain ctor fields] is an
    object literal ([ctor = FnObject]) or an instance [new F()] of a
    caller-defined constructor, which inherits [constructor] from its
    prototype and [valueOf] from [Object.prototype] unless it owns
    properties of these names; all of its own properties are enumerable data
    properties, and [fields] lists them in the order of [Object.keys].
    [OHidden ctor fields hidden] is such an object that also owns the
    non-enumerable properties [hidden] (defined with
    [Object.defineProperty]): [Object.keys] does not list them,
    [hasOwnProperty] and property reads find them.
    [OError name message] is an object made by [Error] itself;
    [OSubError id name message] is an instance of the subclass
    [FnSubError id] of [Error], whose [constructor] is that subclass, and
    which like the instances of the built-in subclasses has no enumerable
    own property. *)
Inductive object :=
| OArray (elems : list value)
| ORegExp (source flags : string)
| ODate (time : number)
| OArrayBuffer (bytes : list Byte.byte)
| OTyped (k : typed_kind) (elems : list number)
| OString (s : string)
| ONumber (n : number)
| OBoolean (b : bool)
| OError (name message : string)
| OSet (elems : list value)
| OMap (entries : list (value * value))
| OPlain (ctor : func) (fields : list (string * value))
| OHidden (ctor : func) (fields hidden : list (string * value))
| OSubError (id : nat) (name message : string).

Abbreviation heap := (list object) (only parsing).

#[global] Instance typed_kind_eq_dec : EqDecision typed_kind.
Proof. solve_decision. Defined.
#[global] Instance func_eq_dec : EqDecision func.
Proof. solve_decision. Defined.

(** ** Results of running JavaScript code

    A call returns, throws, or needs more fuel than it was given.
    [Unmodelled] marks the few host behaviours this development gives no
    semantics to (calling a caller-defined function, numeric conversion of a
    non-number). *)

Inductive outcome (A : Type) :=
| Returns (x : A)
| Throws
| Unmodelled
| OutOfFuel.
Arguments Returns {A} x.
Arguments Throws {A}.
Arguments Unmodelled {A}.
Arguments OutOfFuel {A}.

Definition bind {A B : Type} (m : outcome A) (k : A → outcome B) : outcome B :=
  match m with
  | Returns x => k x
  | Throws => Throws
  | Unmodelled => Unmodelled
  | OutOfFuel => OutOfFuel
  end.

Notation "'let*' x := m 'in' k" := (bind m (λ x, k))
  (at level 10, x name, m at level 200, k at level 200, only parsing).
Notation "'let*' ' p := m 'in' k" := (bind m (λ x, match x with p => k end))
  (at level 10, p pattern, m at level 200, k at level 200, only parsing).

(** ** Operators *)

(** [a === b]. *)
Definition strict_equal (a b : value) : bool :=
  match a, b with
  | VUndefined, VUndefined => true
  | VNull, VNull => true
  | VBool x, VBool y => bool_decide (x = y)
  | VNum x, VNum y => number_eq x y
  | VStr x, VStr y => String.eqb x y
  | VBigInt x, VBigInt y => bool_decide (x = y)
  | VSymbol x, VSymbol y => bool_decide (x = y)
  | VFun f, VFun g => bool_decide (f = g)
  | VObj l, VObj l' => bool_decide (l = l')
  | _, _ => false
  end.

(** [!a] is [negb (truthy a)]. *)
Definition truthy (a : value) : bool :=
  match a with
  | VUndefined | VNull => false
  | VBool b => b
  | VNum NaN | VNum (Zero _) => false
  | VStr "" => false
  | VBigInt 0%Z => false
  | _ => true
  end.

Definition typeof (a : value) : string :=
  match a with
  | VUndefined => "undefined"
  | VNull => "object"
  | VBool _ => "boolean"
  | VNum _ => "number"
  | VStr _ => "string"
  | VBigInt _ => "bigint"
  | VSymbol _ => "symbol"
  | VFun _ => "function"
  | VObj _ => "object"
  end.

(** [Number.isNaN(a)]. *)
Definition Number_isNaN (a : value) : bool :=
  match a with VNum n => is_nan n | _ => false end.

(** [1 / a] for a number [a]; the comparator divides only after [a === 0]
    has been established, where no conversion to number takes place. *)
Definition one_over (a : value) : outcome value :=
  match a with
  | VNum n => Returns (VNum (reciprocal n))
  | _ => Unmodelled
  end.

(** ** Properties of objects *)

Definition key_of_index (i : nat) : string :=
  NilZero.string_of_uint (Nat.to_uint i).

(** The array index a property key denotes, when it is the canonical decimal
    numeral of one. *)
Definition index_of_key (key : string) : option nat :=
  match NilZero.uint_of_string key with
  | Some u =>
      let i := Nat.of_uint u in
      if String.eqb (key_of_index i) key then Some i else None
  | None => None
  end.

Fixpoint assoc {A : Type} (key : string) (fields : list (string * A)) : option A :=
  match fields with
  | [] => None
  | (k, v) :: rest => if String.eqb k key then Some v else assoc key rest
  end.

(** The one-character strings a string iterates over. *)
Fixpoint chars (s : string) : list value :=
  match s with
  | EmptyString => []
  | String c rest => VStr (String c EmptyString) :: chars rest
  end.

Definition element_size (k : typed_kind) : nat :=
  match k with
  | Int8 | Uint8 | Uint8Clamped => 1
  | Int16 | Uint16 => 2
  | Int32 | Uint32 | Float32 => 4
  | Float64 => 8
  end.

(** What the prototype chain answers for the names the comparator reads on an
    object that has no such property of its own. *)
Definition inherited (ctor valueOf : func) (key : string) : value :=
  if String.eqb key "constructor" then VFun ctor
  else if String.eqb key "valueOf" then VFun valueOf
  else VUndefined.

Definition indexed (elems : list value) (key : string) : option value :=
  match index_of_key key with
  | Some i => elems !! i
  | None => None
  end.

Definition with_length (elems : list value) (key : string) (otherwise : value) : value :=
  if String.eqb key "length" then VNum (of_nat (length elems))
  else default otherwise (indexed elems key).

(** [o[key]] (also written [o.key]) for the keys the comparator reads: own
    properties, the accessors of the built-in classes ([length], [size],
    [byteLength], [source], [flags], [name], [message]) and the inherited
    [constructor], [valueOf] and [getTime]. *)
Definition get (o : object) (key : string) : value :=
  match o with
  | OArray elems =>
      with_length elems key (inherited FnArray FnObject_valueOf key)
  | ORegExp source flags =>
      if String.eqb key "source" then VStr source
      else if String.eqb key "flags" then VStr flags
      else inherited FnRegExp FnObject_valueOf key
  | ODate _ =>
      if String.eqb key "getTime" then VFun FnDate_getTime
      else inherited FnDate FnDate_valueOf key
  | OArrayBuffer bytes =>
      if String.eqb key "byteLength" then VNum (of_nat (length bytes))
      else inherited FnArrayBuffer FnObject_valueOf key
  | OTyped k elems =>
      if String.eqb key "byteLength" then VNum (of_nat (element_size k * length elems))
      else with_length (VNum <$> elems) key (inherited (FnTypedArray k) FnObject_valueOf key)
  | OString s =>
      with_length (chars s) key (inherited FnString FnString_valueOf key)
  | ONumber _ => inherited FnNumber FnNumber_valueOf key
  | OBoolean _ => inherited FnBoolean FnBoolean_valueOf key
  | OError name message =>
      if String.eqb key "name" then VStr name
      else if String.eqb key "message" then VStr message
      else inherited FnError FnObject_valueOf key
  | OSet elems =>
      if String.eqb key "size" then VNum (of_nat (length elems))
      else inherited FnSet FnObject_valueOf key
  | OMap entries =>
      if String.eqb key "size" then VNum (of_nat (length entries))
      else inherited FnMap FnObject_valueOf key
  | OPlain ctor fields =>
      default (inherited ctor FnObject_valueOf key) (assoc key fields)
  | OHidden ctor fields hidden =>
      default (inherited ctor FnObject_valueOf key) (assoc key (fields ++ hidden))
  | OSubError id name message =>
      if String.eqb key "name" then VStr name
      else if String.eqb key "message" then VStr message
      else inherited (FnSubError id) FnObject_valueOf key
  end.

Definition get_index (o : object) (i : nat) : value := get o (key_of_index i).

Definition index_keys (n : nat) : list string := key_of_index <$> seq 0 n.

(** [Object.keys(o)]: the own enumerable string keys. *)
Definition keys (o : object) : list string :=
  match o with
  | OArray elems => index_keys (length elems)
  | OTyped _ elems => index_keys (length elems)
  | OString s => index_keys (String.length s)
  | OPlain _ fields | OHidden _ fields _ => fst <$> fields
  | _ => []
  end.

(** [Object.prototype.hasOwnProperty.call(o, key)]: it finds the own
    properties that [Object.keys] lists and those it does not list (the
    [length] of an array or of a boxed string, the non-enumerable
    properties of a plain object).  The classes without enumerable keys are
    never asked: the comparator compares the key counts first. *)
Definition has_own (o : object) (key : string) : bool :=
  match o with
  | OArray elems =>
      String.eqb key "length" || bool_decide (is_Some (indexed elems key))
  | OString s =>
      String.eqb key "length" || bool_decide (is_Some (indexed (chars s) key))
  | OTyped _ elems => bool_decide (is_Some (indexed (VNum <$> elems) key))
  | OPlain _ fields => bool_decide (is_Some (assoc key fields))
  | OHidden _ fields hidden => bool_decide (is_Some (assoc key (fields ++ hidden)))
  | _ => false
  end.

(** The elements of an array or of a typed array. *)
Definition elements_of (o : object) : list value :=
  match o with
  | OArray elems => elems
  | OTyped _ elems => VNum <$> elems
  | _ => []
  end.

Definition is_array (o : object) : bool :=
  match o with OArray _ => true | _ => false end.

(** [ArrayBuffer.isView(o)]. *)
Definition is_view (o : object) : bool :=
  match o with OTyped _ _ => true | _ => false end.

(** Calling the method [f], found on the receiver, with the receiver [this]
    at location [l].  The built-in methods check the class of their
    receiver; a value that is no function cannot be called. *)
Definition call_method (f : value) (l : loc) (this : object) : outcome value :=
  match f with
  | VFun FnObject_valueOf => Returns (VObj l)
  | VFun FnString_valueOf =>
      match this with OString s => Returns (VStr s) | _ => Throws end
  | VFun FnNumber_valueOf =>
      match this with ONumber n => Returns (VNum n) | _ => Throws end
  | VFun FnBoolean_valueOf =>
      match this with OBoolean b => Returns (VBool b) | _ => Throws end
  | VFun FnDate_valueOf | VFun FnDate_getTime =>
      match this with ODate t => Returns (VNum t) | _ => Throws end
  | VFun _ => Unmodelled
  | _ => Throws
  end.

(** [o.name()]. *)
Definition invoke (l : loc) (o : object) (name : string) : outcome value :=
  call_method (get o name) l o.

(** ** Iteration, [Array.from], array destructuring *)

Definition element (arr : list value) (i : nat) : value :=
  default VUndefined (arr !! i).

(** Iterating a Map yields a fresh two-element array per entry; they are
    allocated at the end of the heap. *)
Fixpoint alloc_entries (h : heap) (entries : list (value * value)) : heap * list value :=
  match entries with
  | [] => (h, [])
  | (k, v) :: rest =>
      let '(h', items) := alloc_entries (h ++ [OArray [k; v]]) rest in
      (h', VObj (length h) :: items)
  end.

(** What [for (const item of o)] visits, with the heap that holds the arrays
    the iteration created.  An object that is not iterable throws. *)
Definition iterate (h : heap) (o : object) : outcome (heap * list value) :=
  match o with
  | OArray elems | OSet elems => Returns (h, elems)
  | OTyped _ elems => Returns (h, VNum <$> elems)
  | OString s => Returns (h, chars s)
  | OMap entries => Returns (alloc_entries h entries)
  | _ => Throws
  end.

Definition iterable (o : object) : bool :=
  match o with
  | OArray _ | OSet _ | OTyped _ _ | OString _ | OMap _ => true
  | _ => false
  end.

(** [ToLength] of a number or of [undefined]; lengths beyond what an array
    can have make the array constructor throw. *)
Definition to_length (v : value) : outcome nat :=
  match v with
  | VUndefined | VNum NaN | VNum (Zero _) | VNum (Infinity true)
  | VNum (Frac true _ _) => Returns 0
  | VNum (Frac false n d) =>
      let len := (N.pos n / N.pos d)%N in
      if (len <=? 4294967295)%N then Returns (N.to_nat len) else Throws
  | _ => Unmodelled
  end.

(** [Array.from(o)]: the items of an iterable, else the indexed properties
    below [o.length]. *)
Definition Array_from (h : heap) (o : object) : outcome (heap * list value) :=
  if iterable o then iterate h o
  else let* n := to_length (get o "length") in Returns (h, get_index o <$> seq 0 n).

(** [new Uint8Array(buffer)] on an [ArrayBuffer]. *)
Definition Uint8Array (o : object) : outcome (list value) :=
  match o with
  | OArrayBuffer bytes => Returns ((λ b, VNum (of_nat (Byte.to_nat b))) <$> bytes)
  | _ => Unmodelled
  end.

(** What a Map-style loop [for (const [key, value] of o)] draws from [o]
    before destructuring: the entries of a Map, the items of another
    iterable. *)
Inductive source :=
| Entry (key val : value)
| Item (item : value).

Definition sources (h : heap) (o : object) : outcome (list source) :=
  match o with
  | OMap entries => Returns (uncurry Entry <$> entries)
  | _ => let* '(_, items) := iterate h o in Returns (map Item items)
  end.

Definition first_two (items : list value) : value * value :=
  (element items 0, element items 1).

(** [[key, value] = item].  Destructuring a Map would leave its fresh entry
    arrays in the hands of the caller; that case is not given a semantics. *)
Definition destructure (h : heap) (s : source) : outcome (value * value) :=
  match s with
  | Entry k v => Returns (k, v)
  | Item (VStr str) => Returns (first_two (chars str))
  | Item (VObj l) =>
      match h !! l with
      | Some (OMap _) | None => Unmodelled
      | Some o => let* '(_, items) := iterate h o in Returns (first_two items)
      end
  | Item _ => Throws
  end.

(** [v <= k] for the values a [size] can be. *)
Definition at_most (v : value) (k : nat) : outcome bool :=
  match v with
  | VNum n => Returns (number_le_nat n k)
  | VUndefined => Returns false
  | _ => Unmodelled
  end.

(** ** The comparator *)

Record RequiredDeepEqualOptions := {
  nanEqual : bool;
  checkPrototypes : bool;
  strictZero : bool;
  maxDepth : nat
}.

(** The ledger [seen : WeakMap<object, object>], keyed by reference. *)
Abbreviation ledger := (gmap nat nat) (only parsing).

(** A comparison returns its verdict together with the ledger as the call
    left it: the [WeakMap] is shared with the caller and updated in place. *)
Abbreviation comparison := (outcome (bool * gmap nat nat)) (only parsing).

(** [for (let i = n; i-- !== 0;) { if (!body(i)) return false; } return true;] *)
Fixpoint count_down (n : nat) (body : nat → ledger → comparison) (seen : ledger)
  : comparison :=
  match n with
  | O => Returns (true, seen)
  | S i =>
      let* '(equal, seen) := body i seen in
      if equal then count_down i body seen else Returns (false, seen)
  end.

Section comparator.
Variable options : RequiredDeepEqualOptions.

(** The recursive call [deepEqualCore(x, y, options, seen, depth)]. *)
Variable recur : heap → value → value → ledger → nat → comparison.

(** Inner loop of the small-set branch: scan [setB] from its first item
    for one that is not yet in [processedB] and equals [itemA]. *)
Fixpoint claim_forward (h : heap) (itemA : value) (itemsB : list value)
    (index : nat) (processedB : gset nat) (depth : nat)
  : outcome (bool * gset nat) :=
  match itemsB with
  | [] => Returns (false, processedB)
  | itemB :: rest =>
      if bool_decide (index ∈ processedB)
      then claim_forward h itemA rest (S index) processedB depth
      else
        let* '(equal, _) := recur h itemA itemB ∅ (depth + 1) in
        if equal then Returns (true, {[index]} ∪ processedB)
        else claim_forward h itemA rest (S index) processedB depth
  end.

Fixpoint small_sets (h : heap) (itemsA : list value) (setB : object)
    (processedB : gset nat) (depth : nat) : outcome bool :=
  match itemsA with
  | [] => Returns true
  | itemA :: rest =>
      let* '(hB, itemsB) := iterate h setB in
      let* '(found, processedB) := claim_forward hB itemA itemsB 0 processedB depth in
      if found then small_sets h rest setB processedB depth else Returns false
  end.

(** Inner loop of the large-set branch: [for (let j = n; j-- !== 0;)]. *)
Fixpoint claim_backward (h : heap) (itemA : value) (arrB : list value)
    (n : nat) (processedB : gset nat) (depth : nat)
  : outcome (bool * gset nat) :=
  match n with
  | O => Returns (false, processedB)
  | S j =>
      if bool_decide (j ∈ processedB)
      then claim_backward h itemA arrB j processedB depth
      else
        let* '(equal, _) := recur h itemA (element arrB j) ∅ (depth + 1) in
        if equal then Returns (true, {[j]} ∪ processedB)
        else claim_backward h itemA arrB j processedB depth
  end.

Fixpoint large_sets (h : heap) (arrA arrB : list value) (n : nat)
    (processedB : gset nat) (depth : nat) : outcome bool :=
  match n with
  | O => Returns true
  | S i =>
      let* '(found, processedB) :=
        claim_backward h (element arrA i) arrB (length arrB) processedB depth in
      if found then large_sets h arrA arrB i processedB depth else Returns false
  end.

Definition compareSetOptimized (h : heap) (setA setB : object)
    (seen : ledger) (depth : nat) : comparison :=
  let* small := at_most (get setA "size") 10 in
  if small : bool then
    let* '(hA, itemsA) := iterate h setA in
    let* equal := small_sets hA itemsA setB ∅ depth in
    Returns (equal, seen)
  else
    let* '(hA, arrA) := Array_from h setA in
    let* '(hB, arrB) := Array_from hA setB in
    if negb (length arrA =? length arrB)%nat then Returns (false, seen)
    else
      let* equal := large_sets hB arrA arrB (length arrA) ∅ depth in
      Returns (equal, seen).

(** [deepEqualCore(keyA, keyB, ...) && deepEqualCore(valueA, valueB, ...)] *)
Definition entry_equal (h : heap) (keyA valueA keyB valueB : value)
    (seen : ledger) (depth : nat) : comparison :=
  let* '(equal, seen) := recur h keyA keyB seen (depth + 1) in
  if equal then recur h valueA valueB seen (depth + 1)
  else Returns (false, seen).

Fixpoint find_entry (h : heap) (keyA valueA : value) (entriesB : list source)
    (seen : ledger) (depth : nat) : comparison :=
  match entriesB with
  | [] => Returns (false, seen)
  | entryB :: rest =>
      let* '(keyB, valueB) := destructure h entryB in
      let* '(equal, seen) := entry_equal h keyA valueA keyB valueB seen depth in
      if equal then Returns (true, seen)
      else find_entry h keyA valueA rest seen depth
  end.

Fixpoint each_entry (h : heap) (entriesA : list source) (mapB : object)
    (seen : ledger) (depth : nat) : comparison :=
  match entriesA with
  | [] => Returns (true, seen)
  | entryA :: rest =>
      let* '(keyA, valueA) := destructure h entryA in
      let* entriesB := sources h mapB in
      let* '(found, seen) := find_entry h keyA valueA entriesB seen depth in
      if found then each_entry h rest mapB seen depth
      else Returns (false, seen)
  end.

Definition compareMapOptimized (h : heap) (mapA mapB : object)
    (seen : ledger) (depth : nat) : comparison :=
  let* entriesA := sources h mapA in
  each_entry h entriesA mapB seen depth.

Definition compareObjectOptimized (h : heap) (objA objB : object)
    (seen : ledger) (depth : nat) : comparison :=
  let keysA := keys objA in
  let length := length keysA in
  if negb (length =? List.length (keys objB))%nat then Returns (false, seen)
  else if negb (forallb (has_own objB) keysA) then Returns (false, seen)
  else
    count_down length
      (λ i seen,
         let key := default "" (keysA !! i) in
         recur h (get objA key) (get objB key) seen (depth + 1))
      seen.

(** The array branch, inlined in the source; [arrA] is an array. *)
Definition compare_arrays (h : heap) (arrA arrB : object)
    (seen : ledger) (depth : nat) : comparison :=
  let length := List.length (elements_of arrA) in
  if negb (strict_equal (get arrA "length") (get arrB "length")) then Returns (false, seen)
  else
    count_down length
      (λ i seen, recur h (get_index arrA i) (get_index arrB i) seen (depth + 1))
      seen.

(** The [ArrayBuffer] branch. *)
Definition compare_buffers (bufA bufB : object) : outcome bool :=
  if negb (strict_equal (get bufA "byteLength") (get bufB "byteLength"))
  then Returns false
  else
    let* viewA := Uint8Array bufA in
    let* viewB := Uint8Array bufB in
    Returns (forallb (λ i, strict_equal (element viewA i) (element viewB i))
               (seq 0 (length viewA))).

(** The typed-array branch; [arrA] is a typed array. *)
Definition compare_views (arrA arrB : object) : outcome bool :=
  if negb (strict_equal (get arrA "constructor") (get arrB "constructor"))
     || negb (strict_equal (get arrA "length") (get arrB "length"))
  then Returns false
  else
    Returns (forallb
               (λ i,
                  let valA := get_index arrA i in
                  let valB := get_index arrB i in
                  strict_equal valA valB
                  || (nanEqual options
                      && String.eqb (typeof valA) "number"
                      && String.eqb (typeof valB) "number"
                      && Number_isNaN valA && Number_isNaN valB))
               (seq 0 (length (elements_of arrA)))).

(** The category dispatch on [a], after [seen.set(a, b)]. *)
Definition category_dispatch (h : heap) (la : loc) (a : object) (lb : loc) (b : object)
    (seen : ledger) (depth : nat) : comparison :=
  if is_array a then compare_arrays h a b seen depth
  else if strict_equal (get a "constructor") (VFun FnRegExp) then
    Returns (strict_equal (get a "source") (get b "source")
             && strict_equal (get a "flags") (get b "flags"), seen)
  else if strict_equal (get a "constructor") (VFun FnDate) then
    let* timeA := invoke la a "getTime" in
    let* timeB := invoke lb b "getTime" in
    Returns (strict_equal timeA timeB, seen)
  else if strict_equal (get a "constructor") (VFun FnArrayBuffer) then
    let* equal := compare_buffers a b in Returns (equal, seen)
  else if is_view a then
    let* equal := compare_views a b in Returns (equal, seen)
  else if negb (strict_equal (get a "valueOf") (VFun FnObject_valueOf)) then
    let* primA := invoke la a "valueOf" in
    let* primB := invoke lb b "valueOf" in
    Returns (strict_equal primA primB, seen)
  else if strict_equal (get a "constructor") (VFun FnError) then
    Returns (strict_equal (get a "name") (get b "name")
             && strict_equal (get a "message") (get b "message"), seen)
  else if strict_equal (get a "constructor") (VFun FnSet) then
    if negb (strict_equal (get a "size") (get b "size"))
    then Returns (false, seen)
    else compareSetOptimized h a b seen depth
  else if strict_equal (get a "constructor") (VFun FnMap) then
    if negb (strict_equal (get a "size") (get b "size"))
    then Returns (false, seen)
    else compareMapOptimized h a b seen depth
  else compareObjectOptimized h a b seen depth.

(** From the constructor check on: both operands are objects, [a] at
    location [la] and [b] at [lb]. *)
Definition compare_objects (h : heap) (la : loc) (a : object) (lb : loc) (b : object)
    (seen : ledger) (depth : nat) : comparison :=
  if negb (strict_equal (get a "constructor") (get b "constructor"))
     && checkPrototypes options
  then Returns (false, seen)
  else
    match seen !! la with
    | Some counterpart => Returns (bool_decide (counterpart = lb), seen)
    | None => category_dispatch h la a lb b (<[la := lb]> seen) depth
    end.

(** One activation of [deepEqualCore]. *)
Definition deepEqualCore_body (h : heap) (a b : value) (seen : ledger) (depth : nat)
  : comparison :=
  if bool_decide (maxDepth options < depth) then Returns (false, seen)
  else if strict_equal a b then
    if negb (strictZero options) || negb (strict_equal a (VNum pos_zero))
    then Returns (true, seen)
    else
      let* x := one_over a in
      let* y := one_over b in
      Returns (strict_equal x y, seen)
  else if negb (strict_equal a a) && negb (strict_equal b b) then
    Returns (nanEqual options, seen)
  else if negb (truthy a) || negb (truthy b)
          || negb (String.eqb (typeof a) "object")
          || negb (String.eqb (typeof b) "object")
  then Returns (false, seen)
  else
    match a, b with
    | VObj la, VObj lb =>
        match h !! la, h !! lb with
        | Some oa, Some ob => compare_objects h la oa lb ob seen depth
        | _, _ => Unmodelled
        end
    | _, _ => Unmodelled
    end.
End comparator.

(** [deepEqualCore], with the JavaScript call stack bounded by [fuel]. *)
Fixpoint deepEqualCore (fuel : nat) (options : RequiredDeepEqualOptions) (h : heap)
    (a b : value) (seen : ledger) (depth : nat) : comparison :=
  match fuel with
  | O => OutOfFuel
  | S fuel =>
      deepEqualCore_body options (deepEqualCore fuel options) h a b seen depth
  end.

(** ** The entry point [isDeepEqual] *)

Record DeepEqualOptions := {
  opt_nanEqual : option bool;
  opt_checkPrototypes : option bool;
  opt_strictZero : option bool;
  opt_maxDepth : option nat
}.

Definition no_options : DeepEqualOptions :=
  {| opt_nanEqual := None; opt_checkPrototypes := None;
     opt_strictZero := None; opt_maxDepth := None |}.

Definition resolve (options : DeepEqualOptions) : RequiredDeepEqualOptions :=
  {| nanEqual := default true (opt_nanEqual options);
     checkPrototypes := default false (opt_checkPrototypes options);
     strictZero := default false (opt_strictZero options);
     maxDepth := default 1000 (opt_maxDepth options) |}.

Definition isDeepEqual (fuel : nat) (h : heap) (a b : value) (options : DeepEqualOptions)
  : outcome bool :=
  let* '(equal, _) := deepEqualCore fuel (resolve options) h a b ∅ 0 in Returns equal.

(** ** The standalone copy behind [deepEqualCheck]

    A second source file carries its own [deepEqualCore], called by
    [deepEqualCheck].  It runs the same code from the constructor check on,
    but reaches the depth guard only after the fast paths for identical
    values, NaN and pairs of primitives. *)

Module Standalone.

Definition is_primitive (a : value) : bool :=
  strict_equal a VNull
  || negb (String.eqb (typeof a) "object") && negb (String.eqb (typeof a) "function").

Definition deepEqualCore_body (options : RequiredDeepEqualOptions)
    (recur : heap → value → value → ledger → nat → comparison)
    (h : heap) (a b : value) (seen : ledger) (depth : nat) : comparison :=
  if strict_equal a b then
    if negb (strictZero options) || negb (strict_equal a (VNum pos_zero))
    then Returns (true, seen)
    else
      let* x := one_over a in
      let* y := one_over b in
      Returns (strict_equal x y, seen)
  else if String.eqb (typeof a) "number" && String.eqb (typeof b) "number"
          && Number_isNaN a && Number_isNaN b
  then Returns (nanEqual options, seen)
  else if is_primitive a && is_primitive b then Returns (false, seen)
  else if bool_decide (maxDepth options < depth) then Returns (false, seen)
  else if negb (truthy a) || negb (truthy b)
          || negb (String.eqb (typeof a) "object")
          || negb (String.eqb (typeof b) "object")
  then Returns (false, seen)
  else
    match a, b with
    | VObj la, VObj lb =>
        match h !! la, h !! lb with
        | Some oa, Some ob => compare_objects options recur h la oa lb ob seen depth
        | _, _ => Unmodelled
        end
    | _, _ => Unmodelled
    end.

Fixpoint deepEqualCore (fuel : nat) (options : RequiredDeepEqualOptions) (h : heap)
    (a b : value) (seen : ledger) (depth : nat) : comparison :=
  match fuel with
  | O => OutOfFuel
  | S fuel =>
      deepEqualCore_body options (deepEqualCore fuel options) h a b seen depth
  end.

Definition deepEqualCheck (fuel : nat) (h : heap) (a b : value)
    (options : DeepEqualOptions) : outcome bool :=
  let* '(equal, _) := deepEqualCore fuel (resolve options) h a b ∅ 0 in
  Returns equal.

End Standalone.

(** ** Values used in the examples *)

Definition int (n : nat) : value := VNum (of_nat n).

Definition strict_zero : RequiredDeepEqualOptions :=
  {| nanEqual := true; checkPrototypes := false; strictZero := true; maxDepth := 1000 |}.

(** [new Date(0)] at 0 and [{}] at 1. *)
Definition date_and_record : list object :=
  [ODate pos_zero; OPlain FnObject []].

(** [new Map([[{}, 1], [{}, 1]])] at 0 and [new Map([[{}, 1], [7, 7]])] at 1;
    the three empty records are distinct objects. *)
Definition two_maps : list object :=
  [OMap [(VObj 2, int 1); (VObj 3, int 1)];
   OMap [(VObj 4, int 1); (int 7, int 7)];
   OPlain FnObject []; OPlain FnObject []; OPlain FnObject []].

(** [a = {foo: 1}; a.self = a] at 0, the same with [b] at 1, and
    [c = {foo: 2}; c.self = c] at 2. *)
Definition self_referential : list object :=
  [OPlain FnObject [("foo", int 1); ("self", VObj 0)];
   OPlain FnObject [("foo", int 1); ("self", VObj 1)];
   OPlain FnObject [("foo", int 2); ("self", VObj 2)]].

(** [s = new Set(); s.add(s)] at 0 and a second such set at 1. *)
Definition self_containing_sets : list object :=
  [OSet [VObj 0]; OSet [VObj 1]].

(** What the identity fast path answers for two values that are [===]: the
    signs must agree when both are zeros and [strictZero] is on. *)
Definition same_value_verdict (options : RequiredDeepEqualOptions) (a b : value) : bool :=
  match a, b with
  | VNum (Zero s), VNum (Zero s') => negb (strictZero options) || bool_decide (s = s')
  | _, _ => true
  end.

(** ** First-fit matching, as the specification words it

    Each element of [a], in turn, claims the first element of [b] that has
    not been claimed yet and that it equals; with no such element the
    collections are unequal.  The elements of [b] still unclaimed are kept
    as a list, from which a claimed one is removed. *)

Fixpoint take_first (equal : value → outcome bool) (candidates : list value)
  : outcome (option (list value)) :=
  match candidates with
  | [] => Returns None
  | y :: rest =>
      let* same := equal y in
      if same : bool then Returns (Some rest)
      else
        let* remaining := take_first equal rest in
        Returns (cons y <$> remaining)
  end.

Fixpoint first_fit (equal : value → value → outcome bool) (itemsA unclaimed : list value)
  : outcome bool :=
  match itemsA with
  | [] => Returns true
  | x :: rest =>
      let* remaining := take_first (equal x) unclaimed in
      match remaining with
      | Some unclaimed => first_fit equal rest unclaimed
      | None => Returns false
      end
  end.

(** A candidate pairing of Set elements: a recursive comparison one level
    down that starts from an empty ledger and whose ledger is dropped. *)
Definition pairing (recur : list object → value → value → gmap nat nat → nat → outcome (bool * gmap nat nat))
    (h : list object) (depth : nat) (x y : value) : outcome bool :=
  let* '(equal, _) := recur h x y ∅ (depth + 1) in Returns equal.

(** The items of [b] at the indices from [index] on that [processedB] does
    not hold, and the same scanning downwards from index [n]. *)
Fixpoint unclaimed (items : list value) (index : nat) (processedB : gset nat)
  : list value :=
  match items with
  | [] => []
  | y :: rest =>
      if bool_decide (index ∈ processedB) then unclaimed rest (S index) processedB
      else y :: unclaimed rest (S index) processedB
  end.

Fixpoint unclaimed_down (arr : list value) (n : nat) (processedB : gset nat)
  : list value :=
  match n with
  | O => []
  | S j =>
      if bool_decide (j ∈ processedB) then unclaimed_down arr j processedB
      else element arr j :: unclaimed_down arr j processedB
  end.

(** [arr[n-1], ..., arr[0]]. *)
Fixpoint downwards (arr : list value) (n : nat) : list value :=
  match n with
  | O => []
  | S i => element arr i :: downwards arr i
  end.

(** "For every key, compare [a[key]] with [b[key]]; any mismatch makes the
    objects unequal": the items are compared in turn on a shared ledger,
    up to the first mismatch. *)
Fixpoint each_in_turn {A : Type}
    (compare : A → gmap nat nat → outcome (bool * gmap nat nat))
    (items : list A) (seen : gmap nat nat) : outcome (bool * gmap nat nat) :=
  match items with
  | [] => Returns (true, seen)
  | item :: rest =>
      let* '(equal, seen) := compare item seen in
      if equal : bool then each_in_turn compare rest seen else Returns (false, seen)
  end.

(** [{a: 1, b: {c: 2}}] at 0 and [{b: {c: 2}, a: 1}] at 2. *)
Definition nested_records : list object :=
  [OPlain FnObject [("a", int 1); ("b", VObj 1)];
   OPlain FnObject [("c", int 2)];
   OPlain FnObject [("b", VObj 3); ("a", int 1)];
   OPlain FnObject [("c", int 2)]].

(** [{}] at 0, three dates at 1 (time 0), 2 (time 0) and 3 (time 1), and the
    elements of two sets of eleven: [{}], the date at 1 and the numbers 1 to
    9 on one side; the dates at 2 and 3 and the same numbers on the other. *)
Definition record_and_dates : list object :=
  [OPlain FnObject []; ODate pos_zero; ODate pos_zero; ODate (of_nat 1)].

Definition eleven_left : list value := VObj 0 :: VObj 1 :: (int <$> seq 1 9).
Definition eleven_right : list value := VObj 2 :: VObj 3 :: (int <$> seq 1 9).

(** [new Set([1, 2, 3])] at 0 and [new Set([3, 2, 1])] at 1. *)
Definition number_sets : list object :=
  [OSet [int 1; int 2; int 3]; OSet [int 3; int 2; int 1]].

(** No earlier category claims [a]: the dispatch falls through to
    [compareObjectOptimized]. *)
Definition generic (a : object) : bool :=
  negb (is_array a)
  && negb (strict_equal (get a "constructor") (VFun FnRegExp))
  && negb (strict_equal (get a "constructor") (VFun FnDate))
  && negb (strict_equal (get a "constructor") (VFun FnArrayBuffer))
  && negb (is_view a)
  && strict_equal (get a "valueOf") (VFun FnObject_valueOf)
  && negb (strict_equal (get a "constructor") (VFun FnError))
  && negb (strict_equal (get a "constructor") (VFun FnSet))
  && negb (strict_equal (get a "constructor") (VFun FnMap)).

(** ** Tree-shaped values

    A value together with everything reachable from it, when no object is
    reached along two paths: each node names the location of its object.
    Leaves are the primitives and the objects without children.  The keys
    of a Map are values that are not objects. *)




Definition is_reference (v : value) : bool :=
  match v with VObj _ => true | _ => false end.


(** Constructors of plain objects: [Object] and the caller's own. *)
Definition record_constructor (f : func) : bool :=
  match f with FnObject | FnUser _ => true | _ => false end.




(** *** Structural equality of trees, to a number of levels *)

(** What the comparator answers for two values that are not objects. *)
Definition primitive_equal (options : RequiredDeepEqualOptions) (x y : value) : bool :=
  if strict_equal x y then same_value_verdict options x y
  else negb (strict_equal x x) && negb (strict_equal y y) && nanEqual options.

Fixpoint all_pairs {A : Type} (R : A → A → bool) (xs ys : list A) : bool :=
  match xs, ys with
  | [], [] => true
  | x :: xs, y :: ys => R x y && all_pairs R xs ys
  | _, _ => false
  end.

(** Elements of typed arrays: the same number, or two NaNs under [nanEqual]. *)
Definition element_equal (options : RequiredDeepEqualOptions) (x y : number) : bool :=
  number_eq x y || nanEqual options && is_nan x && is_nan y.

(** What the comparator answers for two objects without children. *)
Definition leaf_equal (options : RequiredDeepEqualOptions) (a b : object) : bool :=
  match a, b with
  | ORegExp source flags, ORegExp source' flags' =>
      String.eqb source source' && String.eqb flags flags'
  | ODate t, ODate t' => number_eq t t'
  | OArrayBuffer bytes, OArrayBuffer bytes' =>
      all_pairs (λ x y, number_eq (of_nat (Byte.to_nat x)) (of_nat (Byte.to_nat y)))
        bytes bytes'
  | OTyped k elems, OTyped k' elems' =>
      bool_decide (k = k') && all_pairs (element_equal options) elems elems'
  | OString s, OString s' => String.eqb s s'
  | ONumber n, ONumber n' => number_eq n n'
  | OBoolean b, OBoolean b' => bool_decide (b = b')
  | OError name message, OError name' message' =>
      String.eqb name name' && String.eqb message message'
  | OSubError id _ _, OSubError id' _ _ => bool_decide (id = id')
  | _, _ => false
  end.



(** The order in which the Set comparator scans: insertion order up to ten
    elements, backwards beyond. *)
Definition scan_order {A : Type} (size : nat) (items : list A) : list A :=
  if bool_decide (size ≤ 10) then items else reverse items.












(** [{}] at 0, [[]] at 1 and [new Number(5)] at 2. *)
Definition record_array_number : list object :=
  [OPlain FnObject []; OArray []; ONumber (of_nat 5)].

Definition with_prototypes : RequiredDeepEqualOptions :=
  {| nanEqual := true; checkPrototypes := true; strictZero := false; maxDepth := 1000 |}.

Definition checking_prototypes : DeepEqualOptions :=
  {| opt_nanEqual := None; opt_checkPrototypes := Some true;
     opt_strictZero := None; opt_maxDepth := Some 5 |}.




(** ** Ledger extension, nesting depth, deep copies and further examples *)

(** A comparison that returns hands back a ledger that extends [seen]:
    entries are added, never overwritten or removed. *)
Definition extends (seen : gmap nat nat) (m : outcome (bool * gmap nat nat)) : Prop :=
  ∀ equal seen', m = Returns (equal, seen') → seen ⊆ seen'.




(** Pairs of objects without children: two regular expressions [/a+/g] at 0
    and 1, two invalid dates at 2 and 3, two one-byte buffers at 4 and 5,
    [Float64Array [NaN, +0]] at 6 and [Float64Array [NaN, -0]] at 7,
    [new Number(NaN)] at 8 and 9, and two errors at 10 and 11. *)
Definition childless_pairs : list object :=
  [ORegExp "a+" "g"; ORegExp "a+" "g"; ODate NaN; ODate NaN;
   OArrayBuffer [Byte.x01]; OArrayBuffer [Byte.x01];
   OTyped Float64 [NaN; pos_zero]; OTyped Float64 [NaN; neg_zero];
   ONumber NaN; ONumber NaN; OError "Error" "boom"; OError "Error" "boom"].

(** [[1, NaN]] at 0 and at 1. *)
Definition number_arrays : list object :=
  [OArray [int 1; VNum NaN]; OArray [int 1; VNum NaN]].


(** [[x, x]] at 0 and [[y, y]] at 1, for two empty records [x] at 2 and [y]
    at 3. *)
Definition aliased_arrays : list object :=
  [OArray [VObj 2; VObj 2]; OArray [VObj 3; VObj 3];
   OPlain FnObject []; OPlain FnObject []].



(** [{a: 1, b: "x"}] at 0 and [{b: "x", a: 1}] at 1. *)
Definition flat_records : list object :=
  [OPlain FnObject [("a", int 1); ("b", VStr "x")];
   OPlain FnObject [("b", VStr "x"); ("a", int 1)]].

(** [[1]] at 0 and at 1, and the options [{maxDepth: 0}]. *)
Definition one_element_arrays : list object := [OArray [int 1]; OArray [int 1]].

Definition flat_only : DeepEqualOptions :=
  {| opt_nanEqual := None; opt_checkPrototypes := None;
     opt_strictZero := None; opt_maxDepth := Some 0 |}.

(** [{length: 1}] at 0 and [[5]] at 1; [{x: 1}] at 2, [{y: 2}] with a
    further, non-enumerable property [x: 1] at 3, and [{y: 2}] at 4. *)
Definition unlike_keys : list object :=
  [OPlain FnObject [("length", int 1)]; OArray [int 5];
   OPlain FnObject [("x", int 1)]; OHidden FnObject [("y", int 2)] [("x", int 1)];
   OPlain FnObject [("y", int 2)]].

(** [{a: 1}] at 0, [{b: 1}] at 1, [{a: 2}] at 2 and [{a: 1, b: 1}] at 3. *)
Definition small_records : list object :=
  [OPlain FnObject [("a", int 1)]; OPlain FnObject [("b", int 1)];
   OPlain FnObject [("a", int 2)]; OPlain FnObject [("a", int 1); ("b", int 1)]].



(** Two [TypeError]s with different messages at 0 and 1, and a [RangeError]
    at 2. *)
Definition type_errors : list object :=
  [OSubError 0 "TypeError" "a"; OSubError 0 "TypeError" "b";
   OSubError 1 "RangeError" "a"].

(** A computation finishes when it does not run out of fuel. *)
Definition finishes {A : Type} (m : outcome A) : Prop := m ≠ OutOfFuel.

(** * Properties *)

(** ** Rule 1: the depth guard *)

Lemma deepEqualCore_too_deep options h a b seen depth fuel :
  maxDepth options < depth →
  deepEqualCore (S fuel) options h a b seen depth = Returns (false, seen).
Proof.
  intros Hdeep. cbn [deepEqualCore]. unfold deepEqualCore_body.
  by rewrite bool_decide_eq_true_2.
Qed.

(** C1.  In the core comparator the depth guard is the first rule: once
    [depth] exceeds [options.maxDepth] the answer is [false] for every pair
    of values, a value compared with itself included, and the ledger is left
    as it was.  The standalone copy behind [deepEqualCheck] reaches the
    guard only after the identity, NaN and primitive fast paths: past the
    ceiling a primitive or an object still equals itself there.  So under
    [{maxDepth: 0}] the array [[1]] equals a copy of itself for
    [deepEqualCheck], through the element [1] compared at depth 1, and does
    not for [isDeepEqual]. *)
Theorem depth_guard_decides_first options h a b seen depth fuel :
  maxDepth options < depth →
  deepEqualCore (S fuel) options h a b seen depth = Returns (false, seen)
  ∧ deepEqualCore (S fuel) options h a a seen depth = Returns (false, seen)
  ∧ Standalone.deepEqualCore 1 (resolve flat_only) one_element_arrays (int 1) (int 1) ∅ 1
    = Returns (true, ∅)
  ∧ Standalone.deepEqualCore 1 (resolve flat_only) one_element_arrays (VObj 0) (VObj 0) ∅ 1
    = Returns (true, ∅)
  ∧ Standalone.deepEqualCheck 2 one_element_arrays (VObj 0) (VObj 1) flat_only
    = Returns true
  ∧ isDeepEqual 2 one_element_arrays (VObj 0) (VObj 1) flat_only = Returns false.
Proof.
  intros Hdeep. split; [by apply deepEqualCore_too_deep |].
  split; [by apply deepEqualCore_too_deep |]. by vm_compute.
Qed.

Lemma depth_guard_decides_first_witness :
  maxDepth (resolve flat_only) < 1
  ∧ deepEqualCore 1 (resolve flat_only) one_element_arrays (int 1) (int 1) ∅ 1
    = Returns (false, ∅)
  ∧ Standalone.deepEqualCore 1 (resolve flat_only) one_element_arrays (int 1) (int 1) ∅ 1
    = Returns (true, ∅).
Proof.
  split; [simpl; lia |].
  destruct (depth_guard_decides_first (resolve flat_only) one_element_arrays
              (int 1) (int 1) ∅ 1 0) as (Hcore & _ & Hstandalone & _);
    [simpl; lia |].
  by split.
Defined.

(** ** Rule 2: the identity fast path *)

Lemma deepEqualCore_same options h a b seen depth fuel :
  depth ≤ maxDepth options →
  strict_equal a b = true →
  deepEqualCore (S fuel) options h a b seen depth
  = Returns (same_value_verdict options a b, seen).
Proof.
  intros Hdepth Hsame.
  cbn [deepEqualCore]. unfold deepEqualCore_body.
  rewrite bool_decide_eq_false_2 by lia. rewrite Hsame.
  destruct (strictZero options) eqn:Hstrict;
    destruct a as [| |?|[]|?|?|?|?|?], b as [| |?|[]|?|?|?|?|?];
    try discriminate; cbn; rewrite ?Hstrict; try done.
Qed.

(** C7.  Two values that are the same primitive value or the same reference
    ([a === b]) compare [true], except under [strictZero] when they are
    numeric zeros: then the verdict is whether their signs agree.  With
    [strictZero] on, [+0] equals [+0] but not [-0]; with the default options
    [+0] equals [-0]. *)
Theorem identity_fast_path :
  (∀ options h a b seen depth fuel,
     depth ≤ maxDepth options →
     strict_equal a b = true →
     deepEqualCore (S fuel) options h a b seen depth
     = Returns (same_value_verdict options a b, seen))
  ∧ isDeepEqual 1 [] (VNum pos_zero) (VNum pos_zero)
      {| opt_nanEqual := None; opt_checkPrototypes := None;
         opt_strictZero := Some true; opt_maxDepth := None |} = Returns true
  ∧ isDeepEqual 1 [] (VNum pos_zero) (VNum neg_zero)
      {| opt_nanEqual := None; opt_checkPrototypes := None;
         opt_strictZero := Some true; opt_maxDepth := None |} = Returns false
  ∧ isDeepEqual 1 [] (VNum pos_zero) (VNum neg_zero) no_options = Returns true
  ∧ isDeepEqual 1 [] (VNum pos_zero) (VNum neg_zero)
      {| opt_nanEqual := None; opt_checkPrototypes := None;
         opt_strictZero := Some false; opt_maxDepth := None |} = Returns true.
Proof.
  split; [| by vm_compute].
  intros. by apply deepEqualCore_same.
Qed.

Lemma identity_fast_path_witness :
  0 ≤ maxDepth strict_zero
  ∧ strict_equal (VNum pos_zero) (VNum neg_zero) = true
  ∧ deepEqualCore 1 strict_zero [] (VNum pos_zero) (VNum neg_zero) ∅ 0
    = Returns (false, ∅).
Proof.
  split; [simpl; lia |]. split; [reflexivity |].
  apply (proj1 identity_fast_path strict_zero [] (VNum pos_zero) (VNum neg_zero) ∅ 0 0);
    [simpl; lia | reflexivity].
Defined.

(** ** Exceptions *)

(** C8 fails on the code.  With the default options (no prototype check) the
    Date branch is chosen from [a.constructor] alone and calls
    [b.getTime()]; on a plain object there is no such method and the call
    throws a [TypeError] instead of answering [false]. *)
Theorem date_against_record_throws :
  isDeepEqual 2 date_and_record (VObj 0) (VObj 1) no_options = Throws
  ∧ isDeepEqual 2 date_and_record (VObj 1) (VObj 0) no_options = Returns true.
Proof. by vm_compute. Qed.

(** ** Maps *)

(** C3 fails on the code.  [compareMapOptimized] keeps no record of the
    entries of [b] it has matched: both entries [{} ↦ 1] of the first map are
    matched to the one entry [{} ↦ 1] of the second, and the maps compare
    equal although the entry [7 ↦ 7] of the second equals no entry of the
    first. *)
Theorem map_entry_matched_twice :
  isDeepEqual 3 two_maps (VObj 0) (VObj 1) no_options = Returns true
  ∧ (∀ keyA valueA seen,
       (keyA, valueA) ∈ [(VObj 2, int 1); (VObj 3, int 1)] →
       ∃ seen', entry_equal (deepEqualCore 2 (resolve no_options)) two_maps
                  keyA valueA (int 7) (int 7) seen 0 = Returns (false, seen')).
Proof.
  split; [by vm_compute |].
  intros keyA valueA seen Hin. exists seen.
  repeat (apply elem_of_cons in Hin as [[= -> ->] | Hin]); [done | done |].
  by apply elem_of_nil in Hin.
Qed.

(** ** Termination *)

Lemma bind_finishes {A B : Type} (m : outcome A) (k : A → outcome B) :
  finishes m → (∀ x, finishes (k x)) → finishes (bind m k).
Proof. intros Hm Hk. destruct m; cbn; auto; done. Qed.

Ltac finishes_step :=
  lazymatch goal with
  | |- finishes (bind _ _) => apply bind_finishes; [| intros ?]
  | |- finishes (match ?x with _ => _ end) => destruct x eqn:?
  | |- finishes (Returns _) => discriminate
  | |- finishes Throws => discriminate
  | |- finishes Unmodelled => discriminate
  end.

Ltac finishes_host := unfold finishes; repeat case_match; discriminate.

Lemma to_length_finishes v : finishes (to_length v).
Proof. unfold to_length. finishes_host. Qed.

Lemma iterate_finishes h o : finishes (iterate h o).
Proof. unfold iterate. finishes_host. Qed.

Lemma Array_from_finishes h o : finishes (Array_from h o).
Proof.
  unfold Array_from. destruct (iterable o); [apply iterate_finishes |].
  apply bind_finishes; [apply to_length_finishes | discriminate].
Qed.

Lemma sources_finishes h o : finishes (sources h o).
Proof.
  unfold sources. destruct o; try discriminate;
    (apply bind_finishes; [apply iterate_finishes | intros []; discriminate]).
Qed.

Lemma destructure_finishes h s : finishes (destructure h s).
Proof.
  unfold destructure. repeat case_match; try discriminate;
    (apply bind_finishes; [apply iterate_finishes | intros []; discriminate]).
Qed.

Lemma at_most_finishes v k : finishes (at_most v k).
Proof. unfold at_most. finishes_host. Qed.

Lemma invoke_finishes l o name : finishes (invoke l o name).
Proof. unfold invoke, call_method. finishes_host. Qed.

Lemma one_over_finishes a : finishes (one_over a).
Proof. unfold one_over. finishes_host. Qed.

Lemma Uint8Array_finishes o : finishes (Uint8Array o).
Proof. unfold Uint8Array. finishes_host. Qed.

Create HintDb finishes.
#[local] Hint Resolve to_length_finishes iterate_finishes Array_from_finishes
  sources_finishes destructure_finishes at_most_finishes invoke_finishes
  one_over_finishes Uint8Array_finishes : finishes.

Ltac finishes_auto := repeat (first [ finishes_step | solve [auto with finishes] ]).

Section finishing.
Variable options : RequiredDeepEqualOptions.
Variable recur : list object → value → value → gmap nat nat → nat → outcome (bool * gmap nat nat).
Variable depth : nat.
Hypothesis recur_finishes : ∀ h x y seen, finishes (recur h x y seen (depth + 1)).

Lemma count_down_finishes n body seen :
  (∀ i s, finishes (body i s)) → finishes (count_down n body seen).
Proof.
  intros Hbody. revert seen. induction n as [|n IH]; intros seen; cbn; finishes_auto.
Qed.

Lemma claim_forward_finishes h itemA itemsB index processedB :
  finishes (claim_forward recur h itemA itemsB index processedB depth).
Proof.
  revert index. induction itemsB as [|itemB rest IH]; intros index; cbn; finishes_auto.
Qed.

Lemma small_sets_finishes h itemsA setB processedB :
  finishes (small_sets recur h itemsA setB processedB depth).
Proof.
  revert processedB. induction itemsA as [|itemA rest IH]; intros processedB; cbn;
    finishes_auto.
  apply claim_forward_finishes.
Qed.

Lemma claim_backward_finishes h itemA arrB n processedB :
  finishes (claim_backward recur h itemA arrB n processedB depth).
Proof. induction n as [|n IH]; cbn; finishes_auto. Qed.

Lemma large_sets_finishes h arrA arrB n processedB :
  finishes (large_sets recur h arrA arrB n processedB depth).
Proof.
  revert processedB. induction n as [|n IH]; intros processedB; cbn; finishes_auto.
  apply claim_backward_finishes.
Qed.

Lemma compareSetOptimized_finishes h setA setB seen :
  finishes (compareSetOptimized recur h setA setB seen depth).
Proof.
  unfold compareSetOptimized. finishes_auto.
  - apply small_sets_finishes.
  - apply large_sets_finishes.
Qed.

Lemma entry_equal_finishes h keyA valueA keyB valueB seen :
  finishes (entry_equal recur h keyA valueA keyB valueB seen depth).
Proof. unfold entry_equal. finishes_auto. Qed.

Lemma find_entry_finishes h keyA valueA entriesB seen :
  finishes (find_entry recur h keyA valueA entriesB seen depth).
Proof.
  revert seen. induction entriesB as [|entryB rest IH]; intros seen; cbn; finishes_auto.
  apply entry_equal_finishes.
Qed.

Lemma each_entry_finishes h entriesA mapB seen :
  finishes (each_entry recur h entriesA mapB seen depth).
Proof.
  revert seen. induction entriesA as [|entryA rest IH]; intros seen; cbn; finishes_auto.
  apply find_entry_finishes.
Qed.

Lemma compareMapOptimized_finishes h mapA mapB seen :
  finishes (compareMapOptimized recur h mapA mapB seen depth).
Proof. unfold compareMapOptimized. finishes_auto. apply each_entry_finishes. Qed.

Lemma compareObjectOptimized_finishes h objA objB seen :
  finishes (compareObjectOptimized recur h objA objB seen depth).
Proof.
  unfold compareObjectOptimized. finishes_auto.
  apply count_down_finishes. auto.
Qed.

Lemma category_dispatch_finishes h la a lb b seen :
  finishes (category_dispatch options recur h la a lb b seen depth).
Proof.
  unfold category_dispatch, compare_arrays, compare_buffers, compare_views.
  finishes_auto;
    auto using count_down_finishes, compareSetOptimized_finishes,
      compareMapOptimized_finishes, compareObjectOptimized_finishes.
Qed.

Lemma deepEqualCore_body_finishes h a b seen :
  finishes (deepEqualCore_body options recur h a b seen depth).
Proof.
  unfold deepEqualCore_body, compare_objects. finishes_auto.
  apply category_dispatch_finishes.
Qed.
End finishing.

Lemma deepEqualCore_finishes options fuel :
  ∀ h a b seen depth,
    maxDepth options < fuel + depth →
    finishes (deepEqualCore (S fuel) options h a b seen depth).
Proof.
  induction fuel as [|fuel IH]; intros h a b seen depth Hfuel; cbn [deepEqualCore].
  - unfold deepEqualCore_body. rewrite bool_decide_eq_true_2 by lia. discriminate.
  - destruct (decide (maxDepth options < depth)) as [Hdeep|Hdeep].
    + unfold deepEqualCore_body. rewrite bool_decide_eq_true_2 by done. discriminate.
    + apply deepEqualCore_body_finishes. intros h' x y seen'.
      apply IH. lia.
Qed.

(** C5 fails on the code: no input makes the comparator recurse without
    bound.  Every recursive call, the pairings of Set elements included,
    passes [depth + 1], and the depth guard is tested first. *)
Lemma no_input_recurses_forever :
  ¬ ∃ options h a b seen depth,
      ∀ fuel, deepEqualCore fuel options h a b seen depth = OutOfFuel.
Proof.
  intros (options & h & a & b & seen & depth & Hforever).
  by apply (deepEqualCore_finishes options (S (maxDepth options)) h a b seen depth);
    [lia |].
Qed.

(** C5, amended.  The ledger does not protect a cycle that passes through a
    Set element, but the depth guard does: [maxDepth + 2 - depth] nested
    calls suffice for any input.  On two sets that each contain themselves
    the recursion runs until the guard refuses it and the verdict is
    [false], where the same cycle through a property of a plain object is
    caught by the ledger and compares [true]. *)
Theorem depth_guard_bounds_recursion options h a b seen depth fuel :
  maxDepth options < fuel + depth →
  deepEqualCore (S fuel) options h a b seen depth ≠ OutOfFuel
  ∧ isDeepEqual 1002 self_containing_sets (VObj 0) (VObj 1) no_options = Returns false
  ∧ isDeepEqual 1001 self_containing_sets (VObj 0) (VObj 1) no_options = OutOfFuel
  ∧ isDeepEqual 2 self_referential (VObj 0) (VObj 1) no_options = Returns true.
Proof.
  intros Hfuel. split; [by apply deepEqualCore_finishes |].
  by vm_compute.
Qed.

Lemma depth_guard_bounds_recursion_witness :
  maxDepth (resolve no_options) < 1001 + 0
  ∧ deepEqualCore 1002 (resolve no_options) self_containing_sets (VObj 0) (VObj 1) ∅ 0
    ≠ OutOfFuel.
Proof.
  split; [simpl; lia |].
  apply (depth_guard_bounds_recursion (resolve no_options) self_containing_sets
           (VObj 0) (VObj 1) ∅ 0 1001).
  simpl; lia.
Defined.

(** ** Rule 6: cycle detection *)

Lemma number_eq_of_nat n m : number_eq (of_nat n) (of_nat m) = bool_decide (n = m).
Proof.
  destruct n as [|n], m as [|m]; cbn; try done.
  rewrite !Pos.mul_1_r. destruct (Pos.eqb_spec (Pos.of_succ_nat n) (Pos.of_succ_nat m)) as [Heq|Hne].
  - apply SuccNat2Pos.inj in Heq as ->. by rewrite !bool_decide_eq_true_2.
  - rewrite andb_false_r, bool_decide_eq_false_2; [done |]. intros [= ->]. done.
Qed.

Lemma number_le_nat_of_nat n k : number_le_nat (of_nat n) k = bool_decide (n ≤ k).
Proof.
  destruct n as [|n]; cbn; [by rewrite bool_decide_eq_true_2 by lia |].
  destruct k as [|k]; cbn.
  - rewrite andb_false_r. by rewrite bool_decide_eq_false_2 by lia.
  - rewrite andb_true_r, Pos.mul_1_r.
    destruct (Pos.leb_spec (Pos.of_succ_nat n) (Pos.of_nat (S k))) as [Hle|Hgt].
    + rewrite bool_decide_eq_true_2; [done |]. lia.
    + rewrite bool_decide_eq_false_2; [done |]. lia.
Qed.

(** What [deepEqualCore] does with two distinct objects within the depth
    bound. *)
Lemma deepEqualCore_objects options h la oa lb ob seen depth fuel :
  h !! la = Some oa → h !! lb = Some ob → la ≠ lb →
  depth ≤ maxDepth options →
  deepEqualCore (S fuel) options h (VObj la) (VObj lb) seen depth
  = compare_objects options (deepEqualCore fuel options) h la oa lb ob seen depth.
Proof.
  intros Ha Hb Hdistinct Hdepth.
  cbn [deepEqualCore]. unfold deepEqualCore_body.
  rewrite bool_decide_eq_false_2 by lia.
  cbn [strict_equal truthy typeof negb String.eqb Ascii.eqb Bool.eqb orb andb].
  rewrite bool_decide_eq_false_2 by done.
  rewrite !bool_decide_eq_true_2 by done.
  cbn [negb andb orb]. by rewrite Ha, Hb.
Qed.

(** C6.  When the call reaches the ledger (the depth is within bounds, the
    operands are two distinct objects and the constructor check lets them
    pass): if [a] is present in the ledger the verdict is whether its
    recorded counterpart is [b] itself; if not, [a ↦ b] is recorded and
    the category dispatch, which descends into the children, runs on the
    ledger so extended.  Two self-referential records [{foo: 1, self}]
    compare [true]; against [{foo: 2, self}] the verdict is [false]. *)
Theorem cycle_detection :
  (∀ options h la oa lb ob seen depth fuel,
     h !! la = Some oa → h !! lb = Some ob → la ≠ lb →
     depth ≤ maxDepth options →
     (checkPrototypes options = true →
      strict_equal (get oa "constructor") (get ob "constructor") = true) →
     deepEqualCore (S fuel) options h (VObj la) (VObj lb) seen depth
     = match seen !! la with
       | Some counterpart => Returns (bool_decide (counterpart = lb), seen)
       | None =>
           category_dispatch options (deepEqualCore fuel options) h la oa lb ob
             (<[la := lb]> seen) depth
       end)
  ∧ isDeepEqual 2 self_referential (VObj 0) (VObj 1) no_options = Returns true
  ∧ isDeepEqual 2 self_referential (VObj 0) (VObj 2) no_options = Returns false.
Proof.
  split; [| by vm_compute].
  intros options h la oa lb ob seen depth fuel Ha Hb Hdistinct Hdepth Hctor.
  rewrite (deepEqualCore_objects _ _ _ oa _ ob) by done. unfold compare_objects.
  destruct (checkPrototypes options).
  - by rewrite Hctor.
  - by rewrite andb_false_r.
Qed.

Lemma cycle_detection_witness :
  self_referential !! 0 = Some (OPlain FnObject [("foo", int 1); ("self", VObj 0)])
  ∧ self_referential !! 1 = Some (OPlain FnObject [("foo", int 1); ("self", VObj 1)])
  ∧ 0 ≠ 1
  ∧ 1 ≤ maxDepth (resolve no_options)
  ∧ deepEqualCore 1 (resolve no_options) self_referential (VObj 0) (VObj 1) {[0 := 1]} 1
    = Returns (true, {[0 := 1]}).
Proof.
  repeat (split; [first [reflexivity | lia | simpl; lia] |]).
  etrans;
    [apply (proj1 cycle_detection (resolve no_options) self_referential
              0 (OPlain FnObject [("foo", int 1); ("self", VObj 0)])
              1 (OPlain FnObject [("foo", int 1); ("self", VObj 1)])
              {[0 := 1]} 1 0); first [reflexivity | lia | simpl; lia | done]
    | reflexivity].
Defined.

(** ** Sets: the two matching loops are first-fit matching *)

Lemma unclaimed_ext items index (P Q : gset nat) :
  (∀ j, index ≤ j → j ∈ P ↔ j ∈ Q) →
  unclaimed items index P = unclaimed items index Q.
Proof.
  revert index. induction items as [|y rest IH]; intros index Hsame; [done |].
  cbn. rewrite (bool_decide_ext _ _ (Hsame index (le_n _))).
  rewrite (IH (S index)); [done |]. intros j Hj. apply Hsame. lia.
Qed.

Lemma unclaimed_empty items index : unclaimed items index ∅ = items.
Proof.
  revert index. induction items as [|y rest IH]; intros index; [done |].
  cbn. rewrite bool_decide_eq_false_2 by set_solver. by rewrite IH.
Qed.

Lemma unclaimed_down_ext arr n (P Q : gset nat) :
  (∀ j, j < n → j ∈ P ↔ j ∈ Q) →
  unclaimed_down arr n P = unclaimed_down arr n Q.
Proof.
  induction n as [|n IH]; intros Hsame; [done |].
  cbn. rewrite (bool_decide_ext _ _ (Hsame n (le_n _))).
  rewrite IH; [done |]. intros j Hj. apply Hsame. lia.
Qed.

Lemma unclaimed_down_empty arr n : unclaimed_down arr n ∅ = downwards arr n.
Proof.
  induction n as [|n IH]; [done |].
  cbn. rewrite bool_decide_eq_false_2 by set_solver. by rewrite IH.
Qed.

Lemma downwards_app arr x : downwards (arr ++ [x]) (length arr) = downwards arr (length arr).
Proof.
  assert (∀ n, n ≤ length arr → downwards (arr ++ [x]) n = downwards arr n) as Hn.
  { induction n as [|n IH]; intros Hle; [done |]. cbn. rewrite IH by lia.
    unfold element. by rewrite lookup_app_l by lia. }
  by apply Hn.
Qed.

Lemma downwards_reverse arr : downwards arr (length arr) = reverse arr.
Proof.
  induction arr as [|x arr IH] using rev_ind; [done |].
  rewrite length_app, Nat.add_1_r. cbn [downwards].
  rewrite downwards_app, IH, reverse_app. cbn.
  unfold element. by rewrite lookup_app_r, Nat.sub_diag by lia.
Qed.

Section set_loops.
Variable recur : list object → value → value → gmap nat nat → nat → outcome (bool * gmap nat nat).
Variables (h : list object) (depth : nat).

Lemma pairing_unfold x y :
  pairing recur h depth x y
  = match recur h x y ∅ (depth + 1) with
    | Returns (equal, _) => Returns equal
    | Throws => Throws
    | Unmodelled => Unmodelled
    | OutOfFuel => OutOfFuel
    end.
Proof. unfold pairing. by destruct (recur h x y ∅ (depth + 1)) as [[]| | |]. Qed.

Lemma claim_forward_take_first x items : ∀ index (P : gset nat),
  match claim_forward recur h x items index P depth with
  | Returns (found, P') =>
      if found then
        ∃ j, index ≤ j ∧ P' = {[j]} ∪ P
             ∧ take_first (pairing recur h depth x) (unclaimed items index P)
               = Returns (Some (unclaimed items index P'))
      else P' = P
           ∧ take_first (pairing recur h depth x) (unclaimed items index P) = Returns None
  | other =>
      take_first (pairing recur h depth x) (unclaimed items index P)
      = match other with Returns _ => Returns None | Throws => Throws
        | Unmodelled => Unmodelled | OutOfFuel => OutOfFuel end
  end.
Proof.
  induction items as [|y rest IH]; intros index P; [done |].
  cbn [claim_forward unclaimed]. specialize (IH (S index) P).
  destruct (decide (index ∈ P)) as [Hin|Hout].
  - rewrite !bool_decide_eq_true_2 by done.
    destruct (claim_forward _ _ _ rest _ _ _) as [[[] P']| | |]; try done.
    destruct IH as (j & Hj & -> & IH). exists j. split; [lia |]. split; [done |].
    rewrite bool_decide_eq_true_2 by set_solver. done.
  - rewrite !bool_decide_eq_false_2 by done. cbn [take_first].
    rewrite pairing_unfold.
    destruct (recur h x y ∅ (depth + 1)) as [[[] s]| | |]; cbn; try done.
    + exists index. split; [done |]. split; [done |].
      rewrite bool_decide_eq_true_2 by set_solver.
      f_equal. f_equal. apply unclaimed_ext. intros j Hj. set_solver by lia.
    + destruct (claim_forward _ _ _ rest _ _ _) as [[[] P']| | |]; cbn.
      * destruct IH as (j & Hj & -> & IH). exists j. split; [lia |]. split; [done |].
        rewrite IH. cbn. rewrite bool_decide_eq_false_2; [done |].
        set_solver by lia.
      * destruct IH as [-> IH]. by rewrite IH.
      * by rewrite IH.
      * by rewrite IH.
      * by rewrite IH.
Qed.

Lemma small_sets_first_fit itemsA itemsB : ∀ P : gset nat,
  small_sets recur h itemsA (OSet itemsB) P depth
  = first_fit (pairing recur h depth) itemsA (unclaimed itemsB 0 P).
Proof.
  induction itemsA as [|x rest IH]; intros P; [done |].
  cbn [small_sets first_fit iterate bind].
  pose proof (claim_forward_take_first x itemsB 0 P) as Hclaim.
  destruct (claim_forward _ _ _ itemsB _ _ _) as [[[] P']| | |]; cbn.
  - destruct Hclaim as (j & _ & -> & ->). cbn. apply IH.
  - destruct Hclaim as [-> ->]. done.
  - by rewrite Hclaim.
  - by rewrite Hclaim.
  - by rewrite Hclaim.
Qed.

Lemma claim_backward_take_first x arrB : ∀ n (P : gset nat),
  match claim_backward recur h x arrB n P depth with
  | Returns (found, P') =>
      if found then
        ∃ j, j < n ∧ P' = {[j]} ∪ P
             ∧ take_first (pairing recur h depth x) (unclaimed_down arrB n P)
               = Returns (Some (unclaimed_down arrB n P'))
      else P' = P
           ∧ take_first (pairing recur h depth x) (unclaimed_down arrB n P) = Returns None
  | other =>
      take_first (pairing recur h depth x) (unclaimed_down arrB n P)
      = match other with Returns _ => Returns None | Throws => Throws
        | Unmodelled => Unmodelled | OutOfFuel => OutOfFuel end
  end.
Proof.
  induction n as [|n IH]; intros P; [done |].
  cbn [claim_backward unclaimed_down]. specialize (IH P).
  destruct (decide (n ∈ P)) as [Hin|Hout].
  - rewrite !bool_decide_eq_true_2 by done.
    destruct (claim_backward _ _ _ arrB _ _ _) as [[[] P']| | |]; try done.
    destruct IH as (j & Hj & -> & IH). exists j. split; [lia |]. split; [done |].
    rewrite bool_decide_eq_true_2 by set_solver. done.
  - rewrite !bool_decide_eq_false_2 by done. cbn [take_first].
    rewrite pairing_unfold.
    destruct (recur h x (element arrB n) ∅ (depth + 1)) as [[[] s]| | |]; cbn; try done.
    + exists n. split; [lia |]. split; [done |].
      rewrite bool_decide_eq_true_2 by set_solver.
      f_equal. f_equal. apply unclaimed_down_ext. intros j Hj. set_solver by lia.
    + destruct (claim_backward _ _ _ arrB _ _ _) as [[[] P']| | |]; cbn.
      * destruct IH as (j & Hj & -> & IH). exists j. split; [lia |]. split; [done |].
        rewrite IH. cbn. rewrite bool_decide_eq_false_2; [done |].
        set_solver by lia.
      * destruct IH as [-> IH]. by rewrite IH.
      * by rewrite IH.
      * by rewrite IH.
      * by rewrite IH.
Qed.

Lemma large_sets_first_fit arrA arrB : ∀ n (P : gset nat),
  large_sets recur h arrA arrB n P depth
  = first_fit (pairing recur h depth) (downwards arrA n)
      (unclaimed_down arrB (length arrB) P).
Proof.
  induction n as [|n IH]; intros P; [done |].
  cbn [large_sets first_fit downwards].
  pose proof (claim_backward_take_first (element arrA n) arrB (length arrB) P) as Hclaim.
  destruct (claim_backward _ _ _ arrB _ _ _) as [[[] P']| | |]; cbn.
  - destruct Hclaim as (j & _ & -> & ->). cbn. apply IH.
  - destruct Hclaim as [-> ->]. done.
  - by rewrite Hclaim.
  - by rewrite Hclaim.
  - by rewrite Hclaim.
Qed.

Lemma small_sets_is_first_fit itemsA itemsB :
  small_sets recur h itemsA (OSet itemsB) ∅ depth
  = first_fit (pairing recur h depth) itemsA itemsB.
Proof. by rewrite small_sets_first_fit, unclaimed_empty. Qed.

Lemma large_sets_is_first_fit arrA arrB :
  large_sets recur h arrA arrB (length arrA) ∅ depth
  = first_fit (pairing recur h depth) (reverse arrA) (reverse arrB).
Proof.
  by rewrite large_sets_first_fit, unclaimed_down_empty, !downwards_reverse.
Qed.
End set_loops.

(** ** Sets *)

Lemma compare_two_sets options recur h la itemsA lb itemsB seen depth :
  category_dispatch options recur h la (OSet itemsA) lb (OSet itemsB) seen depth
  = if bool_decide (length itemsA ≠ length itemsB)
    then Returns (false, seen)
    else
      let* equal :=
        first_fit (pairing recur h depth)
          (scan_order (length itemsA) itemsA) (scan_order (length itemsA) itemsB) in
      Returns (equal, seen).
Proof.
  change (category_dispatch _ _ _ _ (OSet itemsA) _ (OSet itemsB) ?s _)
    with (if negb (number_eq (of_nat (length itemsA)) (of_nat (length itemsB)))
          then Returns (false, s)
          else compareSetOptimized recur h (OSet itemsA) (OSet itemsB) s depth).
  rewrite number_eq_of_nat.
  destruct (decide (length itemsA = length itemsB)) as [Hsize|Hsize].
  2: { by rewrite bool_decide_eq_false_2, bool_decide_eq_true_2. }
  rewrite bool_decide_eq_true_2, bool_decide_eq_false_2 by auto. cbn [negb].
  unfold compareSetOptimized.
  change (get (OSet itemsA) "size") with (VNum (of_nat (length itemsA))).
  cbn [at_most bind]. rewrite number_le_nat_of_nat. unfold scan_order.
  destruct (decide (length itemsA ≤ 10)) as [Hsmall|Hlarge].
  - rewrite !bool_decide_eq_true_2 by done. cbn [iterate bind].
    by rewrite small_sets_is_first_fit.
  - rewrite !bool_decide_eq_false_2 by done. cbn [Array_from iterable iterate bind].
    rewrite Hsize, Nat.eqb_refl. cbn [negb]. rewrite <- Hsize.
    by rewrite large_sets_is_first_fit.
Qed.

(** C4.  Two Sets of different sizes compare unequal.  Otherwise the verdict
    is that of first-fit matching: each element of [a] claims the first
    element of [b] not yet claimed that it equals, where a candidate pair is
    compared one level down on a fresh, empty ledger that is thrown away
    afterwards; an element left without a match makes the sets unequal.
    (Sets of up to ten elements are scanned in insertion order, larger ones
    backwards.)  The caller's ledger gains [a ↦ b] and nothing else. *)
Theorem set_comparison options h la itemsA lb itemsB seen depth fuel :
  h !! la = Some (OSet itemsA) → h !! lb = Some (OSet itemsB) → la ≠ lb →
  depth ≤ maxDepth options →
  seen !! la = None →
  deepEqualCore (S fuel) options h (VObj la) (VObj lb) seen depth
  = if bool_decide (length itemsA ≠ length itemsB)
    then Returns (false, <[la := lb]> seen)
    else
      let* equal :=
        first_fit (pairing (deepEqualCore fuel options) h depth)
          (scan_order (length itemsA) itemsA) (scan_order (length itemsA) itemsB) in
      Returns (equal, <[la := lb]> seen).
Proof.
  intros Ha Hb Hdistinct Hdepth Hfresh.
  rewrite (deepEqualCore_objects _ _ _ _ _ _ _ _ _ Ha Hb) by done.
  unfold compare_objects. rewrite Hfresh.
  replace (negb _ && _) with false by (by destruct (checkPrototypes options)).
  apply compare_two_sets.
Qed.

Lemma set_comparison_witness :
  number_sets !! 0 = Some (OSet [int 1; int 2; int 3])
  ∧ number_sets !! 1 = Some (OSet [int 3; int 2; int 1])
  ∧ 0 ≠ 1
  ∧ 0 ≤ maxDepth (resolve no_options)
  ∧ (∅ : gmap nat nat) !! 0 = None
  ∧ deepEqualCore 2 (resolve no_options) number_sets (VObj 0) (VObj 1) ∅ 0
    = Returns (true, {[0 := 1]}).
Proof.
  repeat (split; [first [reflexivity | lia | simpl; lia] |]).
  etrans;
    [apply (set_comparison (resolve no_options) number_sets
              0 [int 1; int 2; int 3] 1 [int 3; int 2; int 1] ∅ 0 1);
       first [reflexivity | lia | simpl; lia]
    | reflexivity].
Defined.

(** C10 fails on the code: on the same two sequences of elements the loop
    for small sets and the loop for large sets can disagree.  With [{}] and
    a date on one side and two dates on the other (and the numbers 1 to 9 on
    both), scanning forwards lets [{}] claim the date the other element
    needs, scanning backwards does not. *)
Lemma set_branches_disagree :
  small_sets (deepEqualCore 2 (resolve no_options)) record_and_dates
    eleven_left (OSet eleven_right) ∅ 0 = Returns false
  ∧ large_sets (deepEqualCore 2 (resolve no_options)) record_and_dates
      eleven_left eleven_right (length eleven_left) ∅ 0 = Returns true.
Proof. by vm_compute. Qed.

(** C10, amended.  Both loops are first-fit matching and differ in the
    order of the scan only: the loop for large sets computes what the loop
    for small sets computes on the two sequences reversed. *)
Theorem large_sets_scan_backwards options fuel h itemsA itemsB depth :
  large_sets (deepEqualCore fuel options) h itemsA itemsB (length itemsA) ∅ depth
  = small_sets (deepEqualCore fuel options) h (reverse itemsA) (OSet (reverse itemsB))
      ∅ depth.
Proof. by rewrite large_sets_is_first_fit, small_sets_is_first_fit. Qed.

(** ** Generic objects *)

Lemma count_down_ext n body body' seen :
  (∀ i s, i < n → body i s = body' i s) →
  count_down n body seen = count_down n body' seen.
Proof.
  revert seen. induction n as [|n IH]; intros seen Hsame; [done |].
  cbn. rewrite Hsame by lia. destruct (body' n seen) as [[[] s]| | |]; cbn; try done.
  apply IH. intros i s' Hi. apply Hsame. lia.
Qed.

Lemma count_down_each_in_turn {A : Type} (d : A) (ks : list A) body seen :
  count_down (length ks) (λ i s, body (default d (ks !! i)) s) seen
  = each_in_turn body (reverse ks) seen.
Proof.
  revert seen. induction ks as [|k ks IH] using rev_ind; intros seen; [done |].
  rewrite length_app, Nat.add_1_r, reverse_app. cbn.
  rewrite lookup_app_r, Nat.sub_diag by lia. cbn.
  destruct (body k seen) as [[[] s]| | |]; cbn; try done.
  rewrite <- IH. apply count_down_ext. intros i s' Hi.
  by rewrite lookup_app_l.
Qed.

Lemma assoc_is_Some {A : Type} key (fields : list (string * A)) :
  is_Some (assoc key fields) ↔ key ∈ fields.*1.
Proof.
  induction fields as [|[k v] rest IH]; cbn.
  - split; [by intros [? [=]] | by intros ?%elem_of_nil].
  - destruct (String.eqb_spec k key) as [->|Hne].
    + split; [intros _; left | eauto].
    + rewrite IH. split; [by right |].
      intros [?|?]%elem_of_cons; [congruence | done].
Qed.

Lemma own_keys_plain ctor fields ks :
  forallb (has_own (OPlain ctor fields)) ks = true ↔ ks ⊆ fields.*1.
Proof.
  rewrite forallb_forall. setoid_rewrite <- list_elem_of_In. cbn.
  setoid_rewrite bool_decide_eq_true. setoid_rewrite assoc_is_Some. done.
Qed.

(** Two duplicate-free key lists are the same set exactly when they have
    the same length and one is included in the other. *)
Lemma same_key_sets (ks ks' : list string) :
  NoDup ks → NoDup ks' →
  (list_to_set ks =@{gset string} list_to_set ks')
  ↔ length ks = length ks' ∧ ks ⊆ ks'.
Proof.
  intros Hnd Hnd'. split.
  - intros Hsame.
    assert (ks ≡ₚ ks') as Hperm.
    { apply NoDup_Permutation; [done | done |]. intros k.
      rewrite <- !(elem_of_list_to_set (C := gset string)). by rewrite Hsame. }
    split; [by rewrite Hperm | by rewrite Hperm].
  - intros [Hlen Hsub]. apply list_to_set_perm_L.
    apply submseteq_length_Permutation; [| lia].
    by apply NoDup_submseteq.
Qed.


Lemma compare_own_properties recur h a b seen depth :
  compareObjectOptimized recur h a b seen depth
  = if bool_decide (length (keys a) = length (keys b)) && forallb (has_own b) (keys a)
    then
      each_in_turn
        (λ key seen, recur h (get a key) (get b key) seen (depth + 1))
        (reverse (keys a)) seen
    else Returns (false, seen).
Proof.
  unfold compareObjectOptimized.
  destruct (Nat.eqb_spec (length (keys a)) (length (keys b))) as [Hlen|Hlen].
  - rewrite bool_decide_eq_true_2 by done. cbn [negb andb].
    destruct (forallb (has_own b) (keys a)); [| done]. cbn [negb].
    apply (count_down_each_in_turn "" (keys a)
             (λ key seen, recur h (get a key) (get b key) seen (depth + 1))).
  - by rewrite bool_decide_eq_false_2.
Qed.

Lemma generic_dispatch options recur h la a lb b seen depth :
  generic a = true →
  category_dispatch options recur h la a lb b seen depth
  = compareObjectOptimized recur h a b seen depth.
Proof.
  intros Hgeneric.
  unfold generic in Hgeneric. repeat apply andb_prop in Hgeneric as [Hgeneric ?].
  unfold category_dispatch.
  by repeat match goal with
            | H : negb ?c = true |- context [if ?c then _ else _] =>
                apply negb_true_iff in H; rewrite H
            | H : ?c = true |- context [if negb ?c then _ else _] =>
                rewrite H; cbn [negb]
            end.
Qed.

Lemma deepEqualCore_generic options h la a lb b seen depth fuel :
  h !! la = Some a → h !! lb = Some b → la ≠ lb →
  depth ≤ maxDepth options →
  (checkPrototypes options = true →
   strict_equal (get a "constructor") (get b "constructor") = true) →
  seen !! la = None →
  generic a = true →
  deepEqualCore (S fuel) options h (VObj la) (VObj lb) seen depth
  = if bool_decide (length (keys a) = length (keys b)) && forallb (has_own b) (keys a)
    then
      each_in_turn
        (λ key seen,
           deepEqualCore fuel options h (get a key) (get b key) seen (depth + 1))
        (reverse (keys a)) (<[la := lb]> seen)
    else Returns (false, <[la := lb]> seen).
Proof.
  intros Ha Hb Hdistinct Hdepth Hctor Hfresh Hgeneric.
  rewrite (deepEqualCore_objects _ _ _ _ _ _ _ _ _ Ha Hb) by done.
  unfold compare_objects. rewrite Hfresh.
  replace (negb _ && _) with false
    by (destruct (checkPrototypes options); [by rewrite Hctor | by rewrite andb_false_r]).
  rewrite generic_dispatch by done. apply compare_own_properties.
Qed.

(** C9 fails on the code.  The fallback is chosen from [a] alone and tests
    the number of enumerable own keys of [b] and then [hasOwnProperty],
    which also finds the properties [Object.keys] does not list.  So
    [{length: 1}] equals [[5]], whose only enumerable key is ["0"], and
    with prototypes checked [{x: 1}] equals an object whose only enumerable
    property is [y: 2] but which also owns a non-enumerable [x: 1]: the
    enumerable own-key sets differ and the objects compare equal. *)
Lemma key_sets_differ_yet_equal :
  keys <$> unlike_keys !! 0 = Some ["length"]
  ∧ keys <$> unlike_keys !! 1 = Some ["0"]
  ∧ isDeepEqual 3 unlike_keys (VObj 0) (VObj 1) no_options = Returns true
  ∧ keys <$> unlike_keys !! 2 = Some ["x"]
  ∧ keys <$> unlike_keys !! 3 = Some ["y"]
  ∧ isDeepEqual 3 unlike_keys (VObj 2) (VObj 3) checking_prototypes = Returns true.
Proof. by vm_compute. Qed.

(** C9, amended.  In the generic-object fallback, whatever object [b] is,
    the two compare unequal when they have different numbers of enumerable
    own keys or when [b] does not own (enumerably or not) some enumerable
    own key of [a]; otherwise the values under every enumerable own key of
    [a] are compared one level down, from the last key to the first on the
    shared ledger, and the first mismatch makes the objects unequal.  When
    [b] too is a plain object with enumerable properties only, the test on
    the keys is equality of the two key sets, whatever the order of the
    keys.  In particular [{a: 1, b: {c: 2}}] equals [{b: {c: 2}, a: 1}],
    while [{a: 1}] equals neither [{b: 1}] nor [{a: 2}] nor
    [{a: 1, b: 1}]. *)
Theorem fallback_compares_own_properties :
  (∀ options h la a lb b seen depth fuel,
     h !! la = Some a → h !! lb = Some b → la ≠ lb →
     depth ≤ maxDepth options →
     (checkPrototypes options = true →
      strict_equal (get a "constructor") (get b "constructor") = true) →
     seen !! la = None →
     generic a = true →
     deepEqualCore (S fuel) options h (VObj la) (VObj lb) seen depth
     = if bool_decide (length (keys a) = length (keys b))
          && forallb (has_own b) (keys a)
       then
         each_in_turn
           (λ key seen,
              deepEqualCore fuel options h (get a key) (get b key) seen (depth + 1))
           (reverse (keys a)) (<[la := lb]> seen)
       else Returns (false, <[la := lb]> seen))
  ∧ (∀ ctorA fieldsA ctorB fieldsB,
       let a := OPlain ctorA fieldsA in
       let b := OPlain ctorB fieldsB in
       NoDup (keys a) → NoDup (keys b) →
       bool_decide (length (keys a) = length (keys b)) && forallb (has_own b) (keys a)
       = bool_decide (list_to_set (keys a) =@{gset string} list_to_set (keys b)))
  ∧ isDeepEqual 3 nested_records (VObj 0) (VObj 2) no_options = Returns true
  ∧ isDeepEqual 2 small_records (VObj 0) (VObj 1) no_options = Returns false
  ∧ isDeepEqual 2 small_records (VObj 0) (VObj 2) no_options = Returns false
  ∧ isDeepEqual 2 small_records (VObj 0) (VObj 3) no_options = Returns false.
Proof.
  split; [intros; by apply deepEqualCore_generic |].
  split; [| by vm_compute].
  intros ctorA fieldsA ctorB fieldsB a b HndA HndB.
  pose proof (same_key_sets (keys a) (keys b) HndA HndB) as Hsets.
  pose proof (own_keys_plain ctorB fieldsB (keys a)) as Hsub.
  change (fieldsB.*1) with (keys b) in Hsub. fold b in Hsub.
  destruct (decide (list_to_set (keys a) =@{gset string} list_to_set (keys b)))
    as [Hsame|Hdiffer].
  - rewrite (bool_decide_eq_true_2 (list_to_set _ = _)) by done.
    apply Hsets in Hsame as [Hlen Hown]. apply Hsub in Hown.
    by rewrite bool_decide_eq_true_2, Hown.
  - rewrite (bool_decide_eq_false_2 (list_to_set _ = _)) by done.
    apply not_true_is_false.
    intros [Hlen%bool_decide_eq_true Hown%Hsub]%andb_prop.
    apply Hdiffer, Hsets. by split.
Qed.

Lemma fallback_compares_own_properties_witness :
  unlike_keys !! 2 = Some (OPlain FnObject [("x", int 1)])
  ∧ unlike_keys !! 3 = Some (OHidden FnObject [("y", int 2)] [("x", int 1)])
  ∧ 2 ≠ 3
  ∧ 0 ≤ maxDepth with_prototypes
  ∧ strict_equal (get (OPlain FnObject [("x", int 1)]) "constructor")
      (get (OHidden FnObject [("y", int 2)] [("x", int 1)]) "constructor") = true
  ∧ (∅ : gmap nat nat) !! 2 = None
  ∧ generic (OPlain FnObject [("x", int 1)]) = true
  ∧ deepEqualCore 2 with_prototypes unlike_keys (VObj 2) (VObj 3) ∅ 0
    = Returns (true, {[2 := 3]}).
Proof.
  repeat (split; [first [reflexivity | lia | simpl; lia] |]).
  etrans;
    [apply (proj1 fallback_compares_own_properties with_prototypes unlike_keys
              2 (OPlain FnObject [("x", int 1)])
              3 (OHidden FnObject [("y", int 2)] [("x", int 1)]) ∅ 0 1);
       first [reflexivity | lia | simpl; lia | discriminate]
    | by vm_compute].
Defined.

(** ** Indexed properties *)

Lemma index_of_key_of_index i : index_of_key (key_of_index i) = Some i.
Proof.
  unfold index_of_key, key_of_index.
  assert (Nat.to_uint i ≠ Decimal.Nil) as Hnonnil.
  { rewrite <- (DecimalNat.Unsigned.of_to i) at 1.
    rewrite DecimalNat.Unsigned.to_of. apply DecimalFacts.unorm_nonnil. }
  rewrite (NilZero.usu _ Hnonnil), DecimalNat.Unsigned.of_to.
  by rewrite String.eqb_refl.
Qed.

Lemma key_of_index_not_a_name i name :
  index_of_key name = None → String.eqb (key_of_index i) name = false.
Proof.
  intros Hname. destruct (String.eqb_spec (key_of_index i) name) as [<-|]; [| done].
  by rewrite index_of_key_of_index in Hname.
Qed.

Lemma inherited_at_index ctor valueOf i :
  inherited ctor valueOf (key_of_index i) = VUndefined.
Proof. unfold inherited. by rewrite !key_of_index_not_a_name. Qed.

Lemma get_index_elements elems i otherwise :
  otherwise (key_of_index i) = VUndefined →
  with_length elems (key_of_index i) (otherwise (key_of_index i)) = element elems i.
Proof.
  intros Hother. unfold with_length, indexed, element.
  rewrite key_of_index_not_a_name by done.
  rewrite index_of_key_of_index, Hother. by destruct (elems !! i).
Qed.

Lemma get_index_array elems i : get_index (OArray elems) i = element elems i.
Proof.
  unfold get_index. cbn [get].
  apply (get_index_elements elems i (inherited FnArray FnObject_valueOf)),
    inherited_at_index.
Qed.

Lemma get_index_typed k elems i :
  get_index (OTyped k elems) i = element (VNum <$> elems) i.
Proof.
  unfold get_index. cbn [get]. rewrite key_of_index_not_a_name by done.
  apply (get_index_elements _ i (inherited (FnTypedArray k) FnObject_valueOf)),
    inherited_at_index.
Qed.


Lemma assoc_lookup {A : Type} key (x : A) (fields : list (string * A)) :
  NoDup fields.*1 → (key, x) ∈ fields → assoc key fields = Some x.
Proof.
  induction fields as [|[k y] rest IH]; intros Hnd Hin; [by apply elem_of_nil in Hin |].
  apply NoDup_cons in Hnd as [Hk Hnd]. cbn.
  apply elem_of_cons in Hin as [[= <- <-]|Hin]; [by rewrite String.eqb_refl |].
  destruct (String.eqb_spec k key) as [->|]; [| by apply IH].
  destruct Hk. apply list_elem_of_fmap. by exists (key, x).
Qed.

Lemma forallb_pointwise {A : Type} (f g : A → bool) l :
  (∀ x, f x = g x) → forallb f l = forallb g l.
Proof. intros Hsame. induction l as [|x l IH]; cbn; [done |]. by rewrite Hsame, IH. Qed.

Lemma forallb_seq_shift (f : nat → bool) start len :
  forallb f (seq (S start) len) = forallb (λ i, f (S i)) (seq start len).
Proof.
  revert start. induction len as [|len IH]; intros start; [done |].
  cbn. by rewrite IH.
Qed.

Lemma all_pairs_forallb {A : Type} (R : A → A → bool) (d : A) xs ys :
  length xs = length ys →
  forallb (λ i, R (default d (xs !! i)) (default d (ys !! i))) (seq 0 (length xs))
  = all_pairs R xs ys.
Proof.
  revert ys. induction xs as [|x xs IH]; intros [|y ys] [=]; [done |].
  cbn [length seq forallb all_pairs]. cbn. f_equal.
  rewrite <- (IH ys) by done. by rewrite forallb_seq_shift.
Qed.

Lemma all_pairs_length {A : Type} (R : A → A → bool) xs ys :
  all_pairs R xs ys = true → length xs = length ys.
Proof.
  revert ys. induction xs as [|x xs IH]; intros [|y ys]; cbn; try done.
  intros [_ ?]%andb_prop. f_equal. by apply IH.
Qed.

Lemma all_pairs_fmap {A B : Type} (f : A → B) (R : B → B → bool) xs ys :
  all_pairs R (f <$> xs) (f <$> ys) = all_pairs (λ x y, R (f x) (f y)) xs ys.
Proof.
  revert ys. induction xs as [|x xs IH]; intros [|y ys]; cbn; try done.
  by rewrite IH.
Qed.

(** ** Objects without children *)

Section leaves.
Variable options : RequiredDeepEqualOptions.
Variable recur : list object → value → value → gmap nat nat → nat → outcome (bool * gmap nat nat).
Hypothesis prototypes_checked : checkPrototypes options = true.


Lemma all_pairs_ext {A : Type} (R R' : A → A → bool) xs ys :
  (∀ x y, R x y = R' x y) → all_pairs R xs ys = all_pairs R' xs ys.
Proof.
  intros Hsame. revert ys. induction xs as [|x xs IH]; intros [|y ys]; cbn; try done.
  by rewrite Hsame, IH.
Qed.

Lemma compare_views_leaf k elems k' elems' :
  compare_views options (OTyped k elems) (OTyped k' elems')
  = Returns (leaf_equal options (OTyped k elems) (OTyped k' elems')).
Proof.
  unfold compare_views.
  change (get (OTyped ?k ?es) "constructor") with (VFun (FnTypedArray k)).
  change (get (OTyped ?k ?es) "length") with (VNum (of_nat (length (VNum <$> es)))).
  cbn [strict_equal leaf_equal elements_of]. rewrite number_eq_of_nat, !length_fmap.
  destruct (decide (k = k')) as [<-|Hk].
  2: { rewrite (bool_decide_eq_false_2 (FnTypedArray k = FnTypedArray k')),
         (bool_decide_eq_false_2 (k = k')) by congruence. done. }
  rewrite (bool_decide_eq_true_2 (FnTypedArray k = FnTypedArray k)),
    (bool_decide_eq_true_2 (k = k)) by done. cbn [negb orb andb].
  destruct (decide (length elems = length elems')) as [Hlen|Hlen].
  - rewrite bool_decide_eq_true_2 by done. cbn [negb]. f_equal.
    erewrite forallb_pointwise; [| intros i; rewrite !get_index_typed; reflexivity].
    unfold element. rewrite <- (length_fmap VNum elems).
    rewrite (all_pairs_forallb
               (λ valA valB,
                  strict_equal valA valB
                  || nanEqual options && String.eqb (typeof valA) "number"
                     && String.eqb (typeof valB) "number"
                     && Number_isNaN valA && Number_isNaN valB))
      by (by rewrite !length_fmap).
    rewrite all_pairs_fmap. apply all_pairs_ext. intros x y. unfold element_equal. cbn.
    by rewrite !andb_true_r.
  - rewrite bool_decide_eq_false_2 by done. cbn [negb]. f_equal.
    destruct (all_pairs _ elems elems') eqn:Hall; [| done].
    by apply all_pairs_length in Hall.
Qed.

End leaves.

(** ** Values that are not objects *)

Lemma not_both_objects x y :
  is_reference x = false ∨ is_reference y = false →
  negb (truthy x) || negb (truthy y)
  || negb (String.eqb (typeof x) "object") || negb (String.eqb (typeof y) "object")
  = true.
Proof.
  intros [Hx|Hy].
  - destruct x; try discriminate; cbn; try done; by rewrite ?orb_true_r.
  - destruct y; try discriminate; cbn; by rewrite ?orb_true_r.
Qed.

Lemma deepEqualCore_primitives options h x y seen depth fuel :
  depth ≤ maxDepth options →
  is_reference x = false ∨ is_reference y = false →
  deepEqualCore (S fuel) options h x y seen depth
  = Returns (primitive_equal options x y, seen).
Proof.
  intros Hdepth Hprim. unfold primitive_equal.
  destruct (strict_equal x y) eqn:Hsame; [by apply deepEqualCore_same |].
  cbn [deepEqualCore]. unfold deepEqualCore_body.
  rewrite bool_decide_eq_false_2 by lia. rewrite Hsame.
  destruct (negb (strict_equal x x) && negb (strict_equal y y)); [done |].
  by rewrite not_both_objects.
Qed.

Lemma primitive_equal_reference options x l :
  is_reference x = false →
  primitive_equal options x (VObj l) = false ∧ primitive_equal options (VObj l) x = false.
Proof.
  intros Hx. unfold primitive_equal. cbn [strict_equal].
  rewrite bool_decide_eq_true_2 by done.
  destruct x; try discriminate; cbn; by rewrite ?andb_false_r.
Qed.

(** ** Lists of children *)



Lemma forallb_reverse {A : Type} (f : A → bool) l :
  forallb f (reverse l) = forallb f l.
Proof.
  induction l as [|x l IH]; [done |].
  rewrite reverse_cons, forallb_app, IH. cbn. by rewrite andb_true_r, andb_comm.
Qed.

Lemma all_pairs_zip {A : Type} (R : A → A → bool) xs ys :
  length xs = length ys →
  all_pairs R xs ys = forallb (λ p, R p.1 p.2) (zip xs ys).
Proof.
  revert ys. induction xs as [|x xs IH]; intros [|y ys] [=]; [done |].
  cbn. by rewrite IH.
Qed.






(** ** Equality of values that are not objects *)












(** ** Tree-shaped values: the comparator computes [equal_upto] *)




















Section trees.
Variable options : RequiredDeepEqualOptions.
Hypothesis prototypes_checked : checkPrototypes options = true.
Variable h : list object.


(** *** Maps whose keys are not objects *)












End trees.

(** ** [equal_upto] is symmetric and transitive *)







(** *** First-fit matching under a partial equivalence *)





Section matching.
Context {A : Type} (R : A → A → bool) (D : A → Prop).
Hypothesis R_sym : ∀ x y, D x → D y → R x y = true → R y x = true.
Hypothesis R_trans :
  ∀ x y z, D x → D y → D z → R x y = true → R y z = true → R x z = true.











End matching.












(** ** Symmetry *)




Ltac side_condition := first [reflexivity | lia | simpl; lia | done].



(** * Further properties of the comparator *)

(** ** Values that are not objects *)

(** X1.  A value that is not an object (a primitive, [null], [undefined] or
    a function) never equals an object, on whichever side it stands: [5] is
    not equal to [new Number(5)].  Neither the heap nor the ledger is
    consulted. *)
Theorem mixed_types_never_equal options h x l seen depth fuel :
  depth ≤ maxDepth options →
  is_reference x = false →
  deepEqualCore (S fuel) options h x (VObj l) seen depth = Returns (false, seen)
  ∧ deepEqualCore (S fuel) options h (VObj l) x seen depth = Returns (false, seen).
Proof.
  intros Hdepth Hx. rewrite !deepEqualCore_primitives by auto.
  by destruct (primitive_equal_reference options x l Hx) as [-> ->].
Qed.

Lemma mixed_types_never_equal_witness :
  0 ≤ maxDepth (resolve no_options)
  ∧ is_reference (int 5) = false
  ∧ deepEqualCore 1 (resolve no_options) record_array_number (int 5) (VObj 2) ∅ 0
    = Returns (false, ∅)
  ∧ deepEqualCore 1 (resolve no_options) record_array_number (VObj 2) (int 5) ∅ 0
    = Returns (false, ∅).
Proof.
  split; [simpl; lia |]. split; [reflexivity |].
  apply (mixed_types_never_equal (resolve no_options) record_array_number (int 5) 2 ∅ 0 0);
    [simpl; lia | reflexivity].
Defined.

(** X2.  A function equals only itself: compared with any other value,
    another function included, the answer is [false]. *)
Theorem functions_compare_by_identity options h f y seen depth fuel :
  depth ≤ maxDepth options →
  deepEqualCore (S fuel) options h (VFun f) y seen depth
  = Returns (match y with VFun g => bool_decide (f = g) | _ => false end, seen)
  ∧ deepEqualCore (S fuel) options h y (VFun f) seen depth
    = Returns (match y with VFun g => bool_decide (g = f) | _ => false end, seen).
Proof.
  intros Hdepth. rewrite !deepEqualCore_primitives by auto.
  unfold primitive_equal.
  destruct y; cbn; rewrite ?(bool_decide_eq_true_2 (f = f)) by done; cbn;
    rewrite ?andb_false_r; try done.
  split; by case_bool_decide.
Qed.

Lemma functions_compare_by_identity_witness :
  0 ≤ maxDepth (resolve no_options)
  ∧ deepEqualCore 1 (resolve no_options) [] (VFun (FnUser 0)) (VFun (FnUser 1)) ∅ 0
    = Returns (false, ∅).
Proof.
  split; [simpl; lia |].
  apply (functions_compare_by_identity (resolve no_options) [] (FnUser 0)
           (VFun (FnUser 1)) ∅ 0 0).
  simpl; lia.
Defined.

(** ** The constructor check *)

(** X3.  With [checkPrototypes], two objects whose [constructor] properties
    differ are unequal.  This is decided before the ledger is read or
    written and before a branch is selected, so no method of [b] is called:
    a Date against a plain record is [false]. *)
Theorem prototype_check_rejects options h la oa lb ob seen depth fuel :
  h !! la = Some oa → h !! lb = Some ob → la ≠ lb →
  depth ≤ maxDepth options →
  checkPrototypes options = true →
  strict_equal (get oa "constructor") (get ob "constructor") = false →
  deepEqualCore (S fuel) options h (VObj la) (VObj lb) seen depth = Returns (false, seen).
Proof.
  intros Ha Hb Hne Hdepth Hproto Hctor.
  rewrite (deepEqualCore_objects _ _ _ _ _ _ _ _ _ Ha Hb) by done.
  unfold compare_objects. by rewrite Hctor, Hproto.
Qed.

Lemma prototype_check_rejects_witness :
  date_and_record !! 0 = Some (ODate pos_zero)
  ∧ date_and_record !! 1 = Some (OPlain FnObject [])
  ∧ 0 ≠ 1
  ∧ 0 ≤ maxDepth with_prototypes
  ∧ checkPrototypes with_prototypes = true
  ∧ strict_equal (get (ODate pos_zero) "constructor") (get (OPlain FnObject []) "constructor")
    = false
  ∧ deepEqualCore 1 with_prototypes date_and_record (VObj 0) (VObj 1) ∅ 0
    = Returns (false, ∅).
Proof.
  repeat (split; [first [reflexivity | lia | simpl; lia] |]).
  apply (prototype_check_rejects with_prototypes date_and_record
           0 (ODate pos_zero) 1 (OPlain FnObject []) ∅ 0 0);
    first [reflexivity | lia | simpl; lia].
Defined.

(** ** Objects without children *)

Lemma same_class_dispatch options recur h la a lb b seen depth :
  strict_equal (get a "constructor") (get b "constructor") = true →
  seen !! la = None →
  compare_objects options recur h la a lb b seen depth
  = category_dispatch options recur h la a lb b (<[la := lb]> seen) depth.
Proof. intros Hctor Hfresh. unfold compare_objects. by rewrite Hctor, Hfresh. Qed.

Lemma all_pairs_Forall2 {A : Type} (R : A → A → bool) (xs ys : list A) :
  all_pairs R xs ys = true ↔ Forall2 (λ x y, R x y = true) xs ys.
Proof.
  revert ys. induction xs as [|x xs IH]; intros [|y ys]; cbn.
  - split; [constructor | done].
  - split; [done | inversion 1].
  - split; [done | inversion 1].
  - rewrite andb_true_iff, IH. split.
    + intros [??]. by constructor.
    + inversion 1; by subst.
Qed.





(** X5.  Two distinct Date objects are equal exactly when their times are
    [===].  Two invalid dates, whose time is NaN, are therefore unequal,
    whatever [nanEqual] says. *)
Theorem date_comparison options h la time lb time' seen depth fuel :
  h !! la = Some (ODate time) → h !! lb = Some (ODate time') →
  la ≠ lb → depth ≤ maxDepth options → seen !! la = None →
  deepEqualCore (S fuel) options h (VObj la) (VObj lb) seen depth
  = Returns (number_eq time time', <[la := lb]> seen)
  ∧ (time = NaN →
     deepEqualCore (S fuel) options h (VObj la) (VObj lb) seen depth
     = Returns (false, <[la := lb]> seen)).
Proof.
  intros Ha Hb Hne Hdepth Hfresh.
  rewrite (deepEqualCore_objects _ _ _ _ _ _ _ _ _ Ha Hb), same_class_dispatch by done.
  split; [done |]. by intros ->.
Qed.

Lemma date_comparison_witness :
  childless_pairs !! 2 = Some (ODate NaN)
  ∧ childless_pairs !! 3 = Some (ODate NaN)
  ∧ 2 ≠ 3
  ∧ 0 ≤ maxDepth (resolve no_options)
  ∧ (∅ : gmap nat nat) !! 2 = None
  ∧ deepEqualCore 1 (resolve no_options) childless_pairs (VObj 2) (VObj 3) ∅ 0
    = Returns (false, {[2 := 3]}).
Proof.
  repeat (split; [side_condition |]).
  apply (date_comparison (resolve no_options) childless_pairs 2 NaN 3 NaN ∅ 0 0);
    side_condition.
Defined.



(** X7.  Two typed arrays are equal exactly when they are of the same
    kind and length and their elements are pairwise [===], or both NaN when
    [nanEqual] is set.  [strictZero] plays no part: [+0] and [-0] are equal
    elements. *)
Theorem typed_array_comparison options h la k elems lb k' elems' seen depth fuel :
  h !! la = Some (OTyped k elems) → h !! lb = Some (OTyped k' elems') →
  la ≠ lb → depth ≤ maxDepth options → seen !! la = None →
  ∃ equal seen',
    deepEqualCore (S fuel) options h (VObj la) (VObj lb) seen depth
    = Returns (equal, seen')
    ∧ (equal = true
       ↔ k = k'
         ∧ Forall2
             (λ x y, number_eq x y = true ∨ nanEqual options = true ∧ x = NaN ∧ y = NaN)
             elems elems').
Proof.
  intros Ha Hb Hne Hdepth Hfresh.
  rewrite (deepEqualCore_objects _ _ _ _ _ _ _ _ _ Ha Hb) by done.
  assert (∀ s,
    category_dispatch options (deepEqualCore fuel options) h la (OTyped k elems) lb
      (OTyped k' elems') s depth
    = Returns (leaf_equal options (OTyped k elems) (OTyped k' elems'), s)) as Hviews.
  { intros s.
    change (category_dispatch _ _ _ _ (OTyped ?k ?x) _ (OTyped ?k' ?y) ?s _)
      with (let* equal := compare_views options (OTyped k x) (OTyped k' y) in
            Returns (equal, s)).
    by rewrite compare_views_leaf. }
  assert (leaf_equal options (OTyped k elems) (OTyped k' elems') = true
          ↔ k = k'
            ∧ Forall2
                (λ x y, number_eq x y = true ∨ nanEqual options = true ∧ x = NaN ∧ y = NaN)
                elems elems') as Hleaf.
  { cbn [leaf_equal]. rewrite andb_true_iff, bool_decide_eq_true, all_pairs_Forall2.
    apply and_iff_compat_l.
    split; intros Hall; (eapply Forall2_impl; [exact Hall |]); intros x y;
      unfold element_equal.
    - intros [?|[[??]%andb_prop ?]%andb_prop]%orb_prop; [by left | right].
      by destruct x, y.
    - intros [->|(-> & -> & ->)]; [done | by rewrite orb_true_r]. }
  unfold compare_objects.
  destruct (negb _ && checkPrototypes options) eqn:Hcheck.
  - exists false, seen. split; [done |]. split; [done |]. intros [-> _].
    cbn in Hcheck. by rewrite bool_decide_eq_true_2 in Hcheck.
  - rewrite Hfresh, Hviews. by eexists _, _.
Qed.

Lemma typed_array_comparison_witness :
  childless_pairs !! 6 = Some (OTyped Float64 [NaN; pos_zero])
  ∧ childless_pairs !! 7 = Some (OTyped Float64 [NaN; neg_zero])
  ∧ 6 ≠ 7
  ∧ 0 ≤ maxDepth strict_zero
  ∧ (∅ : gmap nat nat) !! 6 = None
  ∧ ∃ equal seen',
      deepEqualCore 1 strict_zero childless_pairs (VObj 6) (VObj 7) ∅ 0
      = Returns (equal, seen')
      ∧ (equal = true
         ↔ Float64 = Float64
           ∧ Forall2
               (λ x y, number_eq x y = true ∨ nanEqual strict_zero = true ∧ x = NaN ∧ y = NaN)
               [NaN; pos_zero] [NaN; neg_zero]).
Proof.
  repeat (split; [side_condition |]).
  apply (typed_array_comparison strict_zero childless_pairs
           6 Float64 [NaN; pos_zero] 7 Float64 [NaN; neg_zero] ∅ 0 0); side_condition.
Defined.

(** X8.  Boxed primitives of one class are compared by
    [a.valueOf() === b.valueOf()] alone, whatever the options: two
    [new Number(NaN)] are unequal even with [nanEqual], and [new Number(+0)]
    equals [new Number(-0)] even with [strictZero]. *)
Theorem boxed_primitive_comparison options h la lb seen depth fuel :
  la ≠ lb → depth ≤ maxDepth options → seen !! la = None →
  (∀ n n', h !! la = Some (ONumber n) → h !! lb = Some (ONumber n') →
     deepEqualCore (S fuel) options h (VObj la) (VObj lb) seen depth
     = Returns (number_eq n n', <[la := lb]> seen))
  ∧ (∀ s s', h !! la = Some (OString s) → h !! lb = Some (OString s') →
       deepEqualCore (S fuel) options h (VObj la) (VObj lb) seen depth
       = Returns (bool_decide (s = s'), <[la := lb]> seen))
  ∧ (∀ b b', h !! la = Some (OBoolean b) → h !! lb = Some (OBoolean b') →
       deepEqualCore (S fuel) options h (VObj la) (VObj lb) seen depth
       = Returns (bool_decide (b = b'), <[la := lb]> seen)).
Proof.
  intros Hne Hdepth Hfresh. split_and!.
  - intros n n' Ha Hb.
    by rewrite (deepEqualCore_objects _ _ _ _ _ _ _ _ _ Ha Hb), same_class_dispatch.
  - intros s s' Ha Hb.
    rewrite (deepEqualCore_objects _ _ _ _ _ _ _ _ _ Ha Hb), same_class_dispatch by done.
    cbn. do 2 f_equal. destruct (String.eqb_spec s s');
      [by rewrite bool_decide_eq_true_2 | by rewrite bool_decide_eq_false_2].
  - intros b b' Ha Hb.
    by rewrite (deepEqualCore_objects _ _ _ _ _ _ _ _ _ Ha Hb), same_class_dispatch.
Qed.

Lemma boxed_primitive_comparison_witness :
  8 ≠ 9
  ∧ 0 ≤ maxDepth (resolve no_options)
  ∧ (∅ : gmap nat nat) !! 8 = None
  ∧ childless_pairs !! 8 = Some (ONumber NaN)
  ∧ childless_pairs !! 9 = Some (ONumber NaN)
  ∧ deepEqualCore 1 (resolve no_options) childless_pairs (VObj 8) (VObj 9) ∅ 0
    = Returns (false, {[8 := 9]}).
Proof.
  repeat (split; [side_condition |]).
  apply (proj1 (boxed_primitive_comparison (resolve no_options) childless_pairs
                  8 9 ∅ 0 0 ltac:(lia) ltac:(simpl; lia) ltac:(reflexivity)) NaN NaN);
    reflexivity.
Defined.

(** X9.  Two distinct objects made by [Error] itself are equal exactly
    when their names and their messages are the same strings.  The test is
    [a.constructor === Error], so instances of a subclass ([TypeError],
    [RangeError] and the like) are not compared that way: having no
    enumerable own keys they fall through to the comparison of plain
    objects, where two of them are equal whatever their names and messages,
    unless prototypes are checked and they belong to different
    subclasses. *)
Theorem error_comparison options h la lb seen depth fuel :
  la ≠ lb → depth ≤ maxDepth options → seen !! la = None →
  (∀ name message name' message',
     h !! la = Some (OError name message) → h !! lb = Some (OError name' message') →
     deepEqualCore (S fuel) options h (VObj la) (VObj lb) seen depth
     = Returns (bool_decide (name = name' ∧ message = message'), <[la := lb]> seen))
  ∧ (∀ id name message id' name' message',
       h !! la = Some (OSubError id name message) →
       h !! lb = Some (OSubError id' name' message') →
       deepEqualCore (S fuel) options h (VObj la) (VObj lb) seen depth
       = if checkPrototypes options && negb (bool_decide (id = id'))
         then Returns (false, seen)
         else Returns (true, <[la := lb]> seen)).
Proof.
  intros Hne Hdepth Hfresh. split.
  - intros name message name' message' Ha Hb.
    rewrite (deepEqualCore_objects _ _ _ _ _ _ _ _ _ Ha Hb), same_class_dispatch by done.
    cbn. do 2 f_equal.
    destruct (String.eqb_spec name name'), (String.eqb_spec message message'); cbn;
      [by rewrite bool_decide_eq_true_2 | by rewrite bool_decide_eq_false_2 by tauto ..].
  - intros id name message id' name' message' Ha Hb.
    destruct (checkPrototypes options && negb (bool_decide (id = id'))) eqn:Hchecked.
    + apply andb_prop in Hchecked as [Hproto Hid%negb_true_iff%bool_decide_eq_false].
      rewrite (deepEqualCore_objects _ _ _ _ _ _ _ _ _ Ha Hb) by done.
      unfold compare_objects. rewrite Hproto.
      change (get (OSubError ?i _ _) "constructor") with (VFun (FnSubError i)).
      cbn [strict_equal]. by rewrite bool_decide_eq_false_2 by congruence.
    + rewrite (deepEqualCore_generic _ _ _ _ _ _ _ _ _ Ha Hb); try done.
      intros Hproto. rewrite Hproto in Hchecked.
      apply negb_false_iff, bool_decide_eq_true in Hchecked as ->.
      cbn. by rewrite bool_decide_eq_true_2.
Qed.

Lemma error_comparison_witness :
  10 ≠ 11
  ∧ 0 ≤ maxDepth (resolve no_options)
  ∧ (∅ : gmap nat nat) !! 10 = None
  ∧ childless_pairs !! 10 = Some (OError "Error" "boom")
  ∧ childless_pairs !! 11 = Some (OError "Error" "boom")
  ∧ deepEqualCore 1 (resolve no_options) childless_pairs (VObj 10) (VObj 11) ∅ 0
    = Returns (true, {[10 := 11]})
  ∧ 0 ≠ 1
  ∧ (∅ : gmap nat nat) !! 0 = None
  ∧ type_errors !! 0 = Some (OSubError 0 "TypeError" "a")
  ∧ type_errors !! 1 = Some (OSubError 0 "TypeError" "b")
  ∧ deepEqualCore 1 (resolve no_options) type_errors (VObj 0) (VObj 1) ∅ 0
    = Returns (true, {[0 := 1]}).
Proof.
  do 5 (split; [side_condition |]).
  split.
  - etrans;
      [apply (proj1 (error_comparison (resolve no_options) childless_pairs 10 11 ∅ 0 0
                       ltac:(lia) ltac:(simpl; lia) ltac:(reflexivity))
                "Error" "boom" "Error" "boom");
         reflexivity
      | reflexivity].
  - do 4 (split; [side_condition |]).
    etrans;
      [apply (proj2 (error_comparison (resolve no_options) type_errors 0 1 ∅ 0 0
                       ltac:(lia) ltac:(simpl; lia) ltac:(reflexivity))
                0 "TypeError" "a" 0 "TypeError" "b");
         reflexivity
      | reflexivity].
Defined.

(** ** An empty record against an object without enumerable keys *)

(** X10.  Without [checkPrototypes], a plain object without own
    properties equals every object that has no enumerable own keys: a Date,
    a regular expression, a Set or a Map of any content, a boxed number. *)
Theorem empty_record_equals_keyless options h la ctor lb b seen depth fuel :
  h !! la = Some (OPlain ctor []) → record_constructor ctor = true →
  h !! lb = Some b → keys b = [] → la ≠ lb →
  depth ≤ maxDepth options → checkPrototypes options = false → seen !! la = None →
  deepEqualCore (S fuel) options h (VObj la) (VObj lb) seen depth
  = Returns (true, <[la := lb]> seen).
Proof.
  intros Ha Hctor Hb Hkeys Hne Hdepth Hproto Hfresh.
  rewrite (deepEqualCore_objects _ _ _ _ _ _ _ _ _ Ha Hb) by done.
  unfold compare_objects. rewrite Hproto, andb_false_r, Hfresh.
  assert (category_dispatch options (deepEqualCore fuel options) h la (OPlain ctor []) lb b
            (<[la := lb]> seen) depth
          = compareObjectOptimized (deepEqualCore fuel options) h (OPlain ctor []) b
              (<[la := lb]> seen) depth) as ->
    by (by destruct ctor).
  unfold compareObjectOptimized. by rewrite Hkeys.
Qed.

Lemma empty_record_equals_keyless_witness :
  date_and_record !! 1 = Some (OPlain FnObject [])
  ∧ record_constructor FnObject = true
  ∧ date_and_record !! 0 = Some (ODate pos_zero)
  ∧ keys (ODate pos_zero) = []
  ∧ 1 ≠ 0
  ∧ 0 ≤ maxDepth (resolve no_options)
  ∧ checkPrototypes (resolve no_options) = false
  ∧ (∅ : gmap nat nat) !! 1 = None
  ∧ deepEqualCore 1 (resolve no_options) date_and_record (VObj 1) (VObj 0) ∅ 0
    = Returns (true, {[1 := 0]}).
Proof.
  repeat (split; [side_condition |]).
  apply (empty_record_equals_keyless (resolve no_options) date_and_record
           1 FnObject 0 (ODate pos_zero) ∅ 0 0); side_condition.
Defined.

(** ** Arrays *)

Lemma compare_arrays_values recur h xs ys seen depth :
  compare_arrays recur h (OArray xs) (OArray ys) seen depth
  = if bool_decide (length xs = length ys)
    then
      each_in_turn (λ p s, recur h p.1 p.2 s (depth + 1)) (reverse (zip xs ys)) seen
    else Returns (false, seen).
Proof.
  unfold compare_arrays.
  change (get (OArray ?es) "length") with (VNum (of_nat (length es))).
  cbn [strict_equal elements_of]. rewrite number_eq_of_nat.
  case_bool_decide as Hlen; [| done]. cbn [negb].
  rewrite <- (count_down_each_in_turn (VUndefined, VUndefined)).
  rewrite length_zip_with, <- Hlen, Nat.min_id.
  apply count_down_ext. intros i s Hi.
  rewrite !get_index_array. unfold element. rewrite lookup_zip_with.
  destruct (lookup_lt_is_Some_2 xs i Hi) as [x ->].
  destruct (lookup_lt_is_Some_2 ys i ltac:(lia)) as [y ->]. done.
Qed.

Lemma deepEqualCore_arrays options h la xs lb ys seen depth fuel :
  h !! la = Some (OArray xs) → h !! lb = Some (OArray ys) → la ≠ lb →
  depth ≤ maxDepth options → seen !! la = None →
  deepEqualCore (S fuel) options h (VObj la) (VObj lb) seen depth
  = if bool_decide (length xs = length ys)
    then
      each_in_turn (λ p s, deepEqualCore fuel options h p.1 p.2 s (depth + 1))
        (reverse (zip xs ys)) (<[la := lb]> seen)
    else Returns (false, <[la := lb]> seen).
Proof.
  intros Ha Hb Hne Hdepth Hfresh.
  rewrite (deepEqualCore_objects _ _ _ _ _ _ _ _ _ Ha Hb), same_class_dispatch by done.
  apply compare_arrays_values.
Qed.

(** X11.  Two arrays of different lengths are unequal.  Otherwise their
    elements are compared pairwise one level down, from the last index to
    the first, on the caller's ledger extended with [a ↦ b]; the first
    mismatch ends the comparison. *)
Theorem array_comparison options h la xs lb ys seen depth fuel :
  h !! la = Some (OArray xs) → h !! lb = Some (OArray ys) → la ≠ lb →
  depth ≤ maxDepth options → seen !! la = None →
  deepEqualCore (S fuel) options h (VObj la) (VObj lb) seen depth
  = if bool_decide (length xs = length ys)
    then
      each_in_turn (λ p s, deepEqualCore fuel options h p.1 p.2 s (depth + 1))
        (reverse (zip xs ys)) (<[la := lb]> seen)
    else Returns (false, <[la := lb]> seen).
Proof. apply deepEqualCore_arrays. Qed.

Lemma array_comparison_witness :
  number_arrays !! 0 = Some (OArray [int 1; VNum NaN])
  ∧ number_arrays !! 1 = Some (OArray [int 1; VNum NaN])
  ∧ 0 ≠ 1
  ∧ 0 ≤ maxDepth (resolve no_options)
  ∧ (∅ : gmap nat nat) !! 0 = None
  ∧ deepEqualCore 2 (resolve no_options) number_arrays (VObj 0) (VObj 1) ∅ 0
    = Returns (true, {[0 := 1]}).
Proof.
  repeat (split; [side_condition |]).
  etrans;
    [apply (array_comparison (resolve no_options) number_arrays
              0 [int 1; VNum NaN] 1 [int 1; VNum NaN] ∅ 0 1); side_condition
    | reflexivity].
Defined.

Lemma each_in_turn_pure {A : Type} compare (p : A → bool) (items : list A) seen :
  (∀ x s, x ∈ items → compare x s = Returns (p x, s)) →
  each_in_turn compare items seen = Returns (forallb p items, seen).
Proof.
  induction items as [|x items IH]; intros Hpure; [done |].
  cbn. rewrite Hpure by left. cbn. destruct (p x); [| done].
  apply IH. intros y s Hy. apply Hpure. by right.
Qed.

(** X12.  An array of primitives equals exactly the arrays of the same
    length whose elements are pairwise equal to its own as primitives:
    [===] (with the signs of zeros agreeing under [strictZero]), or NaN
    against NaN under [nanEqual]. *)
Theorem arrays_of_primitives options h la xs lb ys seen depth fuel :
  h !! la = Some (OArray xs) → h !! lb = Some (OArray ys) → la ≠ lb →
  depth < maxDepth options → seen !! la = None →
  Forall (λ x, is_reference x = false) xs →
  deepEqualCore (S (S fuel)) options h (VObj la) (VObj lb) seen depth
  = Returns (all_pairs (primitive_equal options) xs ys, <[la := lb]> seen).
Proof.
  intros Ha Hb Hne Hdepth Hfresh Hxs.
  rewrite (deepEqualCore_arrays _ _ _ _ _ _ _ _ _ Ha Hb) by (done || lia).
  case_bool_decide as Hlen.
  - rewrite (each_in_turn_pure _ (λ p, primitive_equal options p.1 p.2)).
    + by rewrite forallb_reverse, <- all_pairs_zip.
    + intros [x y] s Hin. rewrite elem_of_reverse in Hin.
      apply elem_of_zip_with in Hin as (x' & y' & [= <- <-] & Hx & Hy).
      rewrite Forall_forall in Hxs. apply deepEqualCore_primitives; [cbn; lia |].
      left. by apply Hxs.
  - do 2 f_equal. symmetry. apply not_true_is_false. by intros ?%all_pairs_length.
Qed.

Lemma arrays_of_primitives_witness :
  0 < maxDepth (resolve no_options)
  ∧ Forall (λ x, is_reference x = false) [int 1; VNum NaN]
  ∧ deepEqualCore 2 (resolve no_options) number_arrays (VObj 0) (VObj 1) ∅ 0
    = Returns (true, {[0 := 1]}).
Proof.
  assert (Forall (λ x, is_reference x = false) [int 1; VNum NaN]) as Hprim
    by (by repeat constructor).
  repeat (split; [side_condition |]).
  etrans;
    [apply (arrays_of_primitives (resolve no_options) number_arrays
              0 [int 1; VNum NaN] 1 [int 1; VNum NaN] ∅ 0 0); side_condition
    | reflexivity].
Defined.

(** X13.  At the depth ceiling a non-empty array equals no other array,
    not even one with the same elements: the elements would be compared one
    level too deep. *)
Theorem nesting_beyond_maxDepth options h la xs lb ys seen fuel :
  h !! la = Some (OArray xs) → h !! lb = Some (OArray ys) → la ≠ lb →
  seen !! la = None →
  xs ≠ [] →
  deepEqualCore (S (S fuel)) options h (VObj la) (VObj lb) seen (maxDepth options)
  = Returns (false, <[la := lb]> seen).
Proof.
  intros Ha Hb Hne Hfresh Hnonempty.
  rewrite (deepEqualCore_arrays _ _ _ _ _ _ _ _ _ Ha Hb) by done.
  case_bool_decide as Hlen; [| done].
  destruct (reverse (zip xs ys)) as [|[x y] rest] eqn:Hzip.
  - apply (f_equal length) in Hzip.
    rewrite length_reverse, length_zip_with, <- Hlen, Nat.min_id in Hzip.
    by destruct xs.
  - cbn [each_in_turn]. by rewrite deepEqualCore_too_deep by lia.
Qed.

Lemma nesting_beyond_maxDepth_witness :
  [int 1; VNum NaN] ≠ []
  ∧ deepEqualCore 2 (resolve no_options) number_arrays (VObj 0) (VObj 1) ∅ 1000
    = Returns (false, {[0 := 1]}).
Proof.
  split; [done |].
  apply (nesting_beyond_maxDepth (resolve no_options) number_arrays
           0 [int 1; VNum NaN] 1 [int 1; VNum NaN] ∅ 0); side_condition.
Defined.

(** ** Sets and Maps of primitives *)











(** ** The ledger only grows *)

Lemma extends_Returns (seen seen' : gmap nat nat) equal :
  seen ⊆ seen' → extends seen (Returns (equal, seen')).
Proof. by intros Hsub ?? [= _ <-]. Qed.

Lemma extends_bind seen (m : outcome (bool * gmap nat nat)) k :
  extends seen m → (∀ equal seen1, seen ⊆ seen1 → extends seen (k (equal, seen1))) →
  extends seen (bind m k).
Proof.
  intros Hm Hk equal seen'. destruct m as [[equal1 seen1]| | |]; cbn; try done.
  apply Hk. by apply (Hm equal1).
Qed.

Lemma extends_bind_host {A : Type} seen (m : outcome A) k :
  (∀ x, extends seen (k x)) → extends seen (bind m k).
Proof. intros Hk equal seen'. destruct m; cbn; try done. apply Hk. Qed.

Lemma extends_weaken (seen seen1 : gmap nat nat) m :
  seen ⊆ seen1 → extends seen1 m → extends seen m.
Proof. intros Hsub Hm equal seen' Hreturns. etrans; [done | by eapply Hm]. Qed.

Section ledger.
Variable options : RequiredDeepEqualOptions.
Variable recur : list object → value → value → gmap nat nat → nat → outcome (bool * gmap nat nat).
Hypothesis recur_extends : ∀ h x y seen depth, extends seen (recur h x y seen depth).

Lemma count_down_extends n body seen :
  (∀ i s, extends s (body i s)) → extends seen (count_down n body seen).
Proof.
  intros Hbody. revert seen. induction n as [|n IH]; intros seen; cbn.
  - by apply extends_Returns.
  - apply extends_bind; [apply Hbody |]. intros [] seen1 Hsub.
    + by apply (extends_weaken _ seen1).
    + by apply extends_Returns.
Qed.

Lemma entry_equal_extends h keyA valueA keyB valueB seen depth :
  extends seen (entry_equal recur h keyA valueA keyB valueB seen depth).
Proof.
  unfold entry_equal. apply extends_bind; [apply recur_extends |].
  intros [] seen1 Hsub.
  - by apply (extends_weaken _ seen1).
  - by apply extends_Returns.
Qed.

Lemma find_entry_extends h keyA valueA entriesB seen depth :
  extends seen (find_entry recur h keyA valueA entriesB seen depth).
Proof.
  revert seen. induction entriesB as [|entryB rest IH]; intros seen; cbn.
  - by apply extends_Returns.
  - apply extends_bind_host. intros [keyB valueB].
    apply extends_bind; [apply entry_equal_extends |]. intros [] seen1 Hsub.
    + by apply extends_Returns.
    + by apply (extends_weaken _ seen1).
Qed.

Lemma each_entry_extends h entriesA mapB seen depth :
  extends seen (each_entry recur h entriesA mapB seen depth).
Proof.
  revert seen. induction entriesA as [|entryA rest IH]; intros seen; cbn.
  - by apply extends_Returns.
  - apply extends_bind_host. intros [keyA valueA].
    apply extends_bind_host. intros entriesB.
    apply extends_bind; [apply find_entry_extends |]. intros [] seen1 Hsub.
    + by apply (extends_weaken _ seen1).
    + by apply extends_Returns.
Qed.

Lemma compareSetOptimized_extends h setA setB seen depth :
  extends seen (compareSetOptimized recur h setA setB seen depth).
Proof.
  unfold compareSetOptimized. apply extends_bind_host. intros [].
  - apply extends_bind_host. intros [hA itemsA].
    apply extends_bind_host. intros equal. by apply extends_Returns.
  - apply extends_bind_host. intros [hA arrA].
    apply extends_bind_host. intros [hB arrB].
    case_match; [by apply extends_Returns |].
    apply extends_bind_host. intros equal. by apply extends_Returns.
Qed.

Lemma category_dispatch_extends h la a lb b seen depth :
  extends seen (category_dispatch options recur h la a lb b seen depth).
Proof.
  unfold category_dispatch, compare_arrays, compareMapOptimized, compareObjectOptimized.
  repeat case_match;
    first [ by apply extends_Returns
          | by apply count_down_extends
          | apply compareSetOptimized_extends
          | repeat (apply extends_bind_host; intros ?);
            first [by apply extends_Returns | apply each_entry_extends] ].
Qed.

Lemma deepEqualCore_body_extends h a b seen depth :
  extends seen (deepEqualCore_body options recur h a b seen depth).
Proof.
  unfold deepEqualCore_body, compare_objects.
  repeat case_match;
    repeat (apply extends_bind_host; intros ?);
    try (by apply extends_Returns); try done.
  eapply extends_weaken; [| apply category_dispatch_extends].
  by apply insert_subseteq.
Qed.
End ledger.

Lemma deepEqualCore_extends options fuel :
  ∀ h a b seen depth, extends seen (deepEqualCore fuel options h a b seen depth).
Proof.
  induction fuel as [|fuel IH]; intros h a b seen depth; [done |].
  by apply deepEqualCore_body_extends.
Qed.

(** X16.  The ledger only grows: a comparison that returns hands back a
    ledger that holds every entry of the ledger it was given, unchanged. *)
Theorem ledger_only_grows options fuel h a b seen depth equal seen' :
  deepEqualCore fuel options h a b seen depth = Returns (equal, seen') →
  seen ⊆ seen'.
Proof. apply deepEqualCore_extends. Qed.

Lemma ledger_only_grows_witness :
  deepEqualCore 3 (resolve no_options) nested_records (VObj 0) (VObj 2) {[5 := 6]} 0
  = Returns (true, {[0 := 2; 1 := 3; 5 := 6]})
  ∧ ({[5 := 6]} : gmap nat nat) ⊆ {[0 := 2; 1 := 3; 5 := 6]}.
Proof.
  assert (deepEqualCore 3 (resolve no_options) nested_records (VObj 0) (VObj 2)
            {[5 := 6]} 0
          = Returns (true, {[0 := 2; 1 := 3; 5 := 6]})) as Hequal by reflexivity.
  split; [exact Hequal |].
  exact (ledger_only_grows _ _ _ _ _ _ _ _ _ Hequal).
Defined.

(** ** Aliasing *)

Lemma compared_objects options fuel h la lb seen depth seen' :
  deepEqualCore fuel options h (VObj la) (VObj lb) seen depth = Returns (true, seen') →
  la ≠ lb →
  match seen !! la with
  | Some counterpart => counterpart = lb ∧ seen' = seen
  | None => <[la := lb]> seen ⊆ seen'
  end.
Proof.
  intros Hequal Hne. destruct fuel as [|fuel]; [done |].
  cbn [deepEqualCore] in Hequal. unfold deepEqualCore_body in Hequal.
  case_bool_decide; [done |]. cbn [strict_equal] in Hequal.
  rewrite !bool_decide_eq_false_2, !bool_decide_eq_true_2 in Hequal by done.
  cbn in Hequal.
  destruct (h !! la) as [oa|]; [| done]. destruct (h !! lb) as [ob|]; [| done].
  unfold compare_objects in Hequal. case_match; [done |].
  destruct (seen !! la) as [counterpart|].
  - injection Hequal as Hsame <-. by apply bool_decide_eq_true in Hsame.
  - by apply category_dispatch_extends in Hequal; [| apply deepEqualCore_extends].
Qed.

Lemma recorded_after_equal options fuel h la lb seen depth seen' :
  deepEqualCore fuel options h (VObj la) (VObj lb) seen depth = Returns (true, seen') →
  la ≠ lb →
  seen' !! la = Some lb.
Proof.
  intros Hequal Hne. pose proof (compared_objects _ _ _ _ _ _ _ _ Hequal Hne) as Hledger.
  destruct (seen !! la) as [counterpart|] eqn:Hseen.
  - by destruct Hledger as [-> ->].
  - apply (lookup_weaken _ _ _ _ (lookup_insert_eq seen la lb) Hledger).
Qed.

Lemma each_in_turn_true_elem {A : Type} compare (items : list A) seen seen_end q v :
  (∀ item s, extends s (compare item s)) →
  each_in_turn compare items seen = Returns (true, seen_end) →
  items !! q = Some v →
  ∃ s s', seen ⊆ s ∧ compare v s = Returns (true, s').
Proof.
  intros Hgrows. revert seen q. induction items as [|w rest IH]; intros seen q; [done |].
  cbn [each_in_turn]. destruct (compare w seen) as [[[] seen1]| | |] eqn:Hw; try done.
  cbn [bind]. intros Hrest Hq. destruct q as [|q].
  - injection Hq as <-. by exists seen, seen1.
  - destruct (IH seen1 q Hrest Hq) as (s & s' & Hsub & Hv).
    exists s, s'. split; [| done]. etrans; [| done]. by apply (Hgrows w seen true).
Qed.

Lemma each_in_turn_true_pair {A : Type} compare (items : list A) seen seen_end p q u v :
  (∀ item s, extends s (compare item s)) →
  each_in_turn compare items seen = Returns (true, seen_end) →
  items !! p = Some u → items !! q = Some v → p < q →
  ∃ s1 s2 s3 s4,
    compare u s1 = Returns (true, s2) ∧ s2 ⊆ s3 ∧ compare v s3 = Returns (true, s4).
Proof.
  intros Hgrows. revert seen p q. induction items as [|w rest IH]; intros seen p q; [done |].
  cbn [each_in_turn]. destruct (compare w seen) as [[[] seen1]| | |] eqn:Hw; try done.
  cbn [bind]. intros Hrest Hp Hq Hlt. destruct q as [|q]; [lia |]. destruct p as [|p].
  - injection Hp as <-.
    destruct (each_in_turn_true_elem _ _ _ _ _ _ Hgrows Hrest Hq) as (s & s' & Hsub & Hv).
    by exists seen, seen1, s, s'.
  - apply (IH seen1 p q); [done | done | done | lia].
Qed.

Lemma aliased_elements_in_order options fuel h la xs lb ys seen depth i j x y z seen' :
  h !! la = Some (OArray xs) → h !! lb = Some (OArray ys) → la ≠ lb →
  seen !! la = None →
  xs !! i = Some (VObj x) → xs !! j = Some (VObj x) →
  ys !! i = Some (VObj y) → ys !! j = Some (VObj z) →
  x ≠ y → x ≠ z → i < j →
  deepEqualCore fuel options h (VObj la) (VObj lb) seen depth = Returns (true, seen') →
  y = z.
Proof.
  intros Ha Hb Hne Hfresh Hxi Hxj Hyi Hyj Hxy Hxz Hij Hequal.
  destruct fuel as [|fuel]; [done |].
  destruct (decide (depth ≤ maxDepth options)) as [Hdepth|Hdeep];
    [| by rewrite deepEqualCore_too_deep in Hequal by lia].
  rewrite (deepEqualCore_arrays _ _ _ _ _ _ _ _ _ Ha Hb) in Hequal by done.
  case_bool_decide as Hlen; [| done].
  pose proof (lookup_lt_Some _ _ _ Hxj) as Hj.
  assert (length (zip xs ys) = length xs) as Hzip
    by (by rewrite length_zip_with, <- Hlen, Nat.min_id).
  destruct (each_in_turn_true_pair _ _ _ _ (length xs - S j) (length xs - S i)
              (VObj x, VObj z) (VObj x, VObj y)
              (λ p s, deepEqualCore_extends options fuel h p.1 p.2 s (depth + 1)) Hequal)
    as (s1 & s2 & s3 & s4 & Hfirst & Hsub & Hsecond).
  - rewrite reverse_lookup by lia. rewrite Hzip.
    replace (length xs - S (length xs - S j)) with j by lia.
    by rewrite lookup_zip_with, Hxj, Hyj.
  - rewrite reverse_lookup by lia. rewrite Hzip.
    replace (length xs - S (length xs - S i)) with i by lia.
    by rewrite lookup_zip_with, Hxi, Hyi.
  - lia.
  - cbn [fst snd] in Hfirst, Hsecond.
    apply recorded_after_equal in Hfirst; [| done].
    pose proof (compared_objects _ _ _ _ _ _ _ _ Hsecond Hxy) as Hledger.
    rewrite (lookup_weaken _ _ _ _ Hfirst Hsub) in Hledger. by destruct Hledger.
Qed.

(** X17.  When two distinct objects compare equal, the ledger handed
    back maps [a] to [b]. *)
Theorem equal_objects_are_recorded options fuel h la lb seen depth seen' :
  deepEqualCore fuel options h (VObj la) (VObj lb) seen depth = Returns (true, seen') →
  la ≠ lb →
  seen' !! la = Some lb.
Proof. apply recorded_after_equal. Qed.

Lemma equal_objects_are_recorded_witness :
  deepEqualCore 3 (resolve no_options) nested_records (VObj 0) (VObj 2) ∅ 0
  = Returns (true, {[0 := 2; 1 := 3]})
  ∧ 0 ≠ 2
  ∧ ({[0 := 2; 1 := 3]} : gmap nat nat) !! 0 = Some 2.
Proof.
  assert (deepEqualCore 3 (resolve no_options) nested_records (VObj 0) (VObj 2) ∅ 0
          = Returns (true, {[0 := 2; 1 := 3]})) as Hequal by reflexivity.
  split; [exact Hequal |]. split; [lia |].
  exact (equal_objects_are_recorded _ _ _ _ _ _ _ _ Hequal ltac:(lia)).
Defined.

(** X18.  Aliasing is preserved.  When an array that holds one object
    [x] at two indices compares equal to a second array, the second array
    holds one and the same object at those two indices (provided it does not
    hold [x] itself there). *)
Theorem aliased_elements_share_a_counterpart
    options fuel h la xs lb ys seen depth i j x y z seen' :
  h !! la = Some (OArray xs) → h !! lb = Some (OArray ys) → la ≠ lb →
  seen !! la = None →
  xs !! i = Some (VObj x) → xs !! j = Some (VObj x) →
  ys !! i = Some (VObj y) → ys !! j = Some (VObj z) →
  x ≠ y → x ≠ z →
  deepEqualCore fuel options h (VObj la) (VObj lb) seen depth = Returns (true, seen') →
  y = z.
Proof.
  intros Ha Hb Hne Hfresh Hxi Hxj Hyi Hyj Hxy Hxz Hequal.
  destruct (Nat.lt_total i j) as [Hlt|[->|Hlt]].
  - exact (aliased_elements_in_order options fuel h la xs lb ys seen depth i j x y z seen'
             Ha Hb Hne Hfresh Hxi Hxj Hyi Hyj Hxy Hxz Hlt Hequal).
  - congruence.
  - symmetry.
    exact (aliased_elements_in_order options fuel h la xs lb ys seen depth j i x z y seen'
             Ha Hb Hne Hfresh Hxj Hxi Hyj Hyi Hxz Hxy Hlt Hequal).
Qed.

Lemma aliased_elements_share_a_counterpart_witness :
  aliased_arrays !! 0 = Some (OArray [VObj 2; VObj 2])
  ∧ aliased_arrays !! 1 = Some (OArray [VObj 3; VObj 3])
  ∧ deepEqualCore 3 (resolve no_options) aliased_arrays (VObj 0) (VObj 1) ∅ 0
    = Returns (true, {[0 := 1; 2 := 3]})
  ∧ 3 = 3.
Proof.
  assert (deepEqualCore 3 (resolve no_options) aliased_arrays (VObj 0) (VObj 1) ∅ 0
          = Returns (true, {[0 := 1; 2 := 3]})) as Hequal by reflexivity.
  repeat (split; [first [exact Hequal | side_condition] |]).
  apply (aliased_elements_share_a_counterpart (resolve no_options) 3 aliased_arrays
           0 [VObj 2; VObj 2] 1 [VObj 3; VObj 3] ∅ 0 0 1 2 3 3 {[0 := 1; 2 := 3]});
    first [exact Hequal | side_condition].
Defined.

(** ** The recursive calls of one activation

    One activation at [depth] consults the recursive call at [depth + 1]
    only. *)

Section one_level_down.
Variable options : RequiredDeepEqualOptions.
Variables recur recur' : list object → value → value → gmap nat nat → nat → outcome (bool * gmap nat nat).
Variable depth : nat.
Hypothesis recur_same :
  ∀ h x y seen, recur h x y seen (depth + 1) = recur' h x y seen (depth + 1).

Lemma claim_forward_same h itemA itemsB index processedB :
  claim_forward recur h itemA itemsB index processedB depth
  = claim_forward recur' h itemA itemsB index processedB depth.
Proof.
  revert index. induction itemsB as [|itemB rest IH]; intros index; cbn; [done |].
  by rewrite recur_same, !IH.
Qed.

Lemma small_sets_same h itemsA setB processedB :
  small_sets recur h itemsA setB processedB depth
  = small_sets recur' h itemsA setB processedB depth.
Proof.
  revert processedB. induction itemsA as [|itemA rest IH]; intros processedB; cbn; [done |].
  destruct (iterate h setB) as [[hB itemsB]| | |]; cbn; try done.
  rewrite claim_forward_same.
  destruct (claim_forward recur' hB itemA itemsB 0 processedB depth) as [[[] ?]| | |];
    cbn; by rewrite ?IH.
Qed.

Lemma claim_backward_same h itemA arrB n processedB :
  claim_backward recur h itemA arrB n processedB depth
  = claim_backward recur' h itemA arrB n processedB depth.
Proof. induction n as [|n IH]; cbn; [done |]. by rewrite recur_same, !IH. Qed.

Lemma large_sets_same h arrA arrB n processedB :
  large_sets recur h arrA arrB n processedB depth
  = large_sets recur' h arrA arrB n processedB depth.
Proof.
  revert processedB. induction n as [|n IH]; intros processedB; cbn; [done |].
  rewrite claim_backward_same.
  destruct (claim_backward recur' h (element arrA n) arrB (length arrB) processedB depth)
    as [[[] ?]| | |]; cbn; by rewrite ?IH.
Qed.

Lemma compareSetOptimized_same h setA setB seen :
  compareSetOptimized recur h setA setB seen depth
  = compareSetOptimized recur' h setA setB seen depth.
Proof.
  unfold compareSetOptimized.
  destruct (at_most (get setA "size") 10) as [[]| | |]; cbn; try done.
  - destruct (iterate h setA) as [[hA itemsA]| | |]; cbn; try done.
    by rewrite small_sets_same.
  - destruct (Array_from h setA) as [[hA arrA]| | |]; cbn; try done.
    destruct (Array_from hA setB) as [[hB arrB]| | |]; cbn; try done.
    by rewrite large_sets_same.
Qed.

Lemma entry_equal_same h keyA valueA keyB valueB seen :
  entry_equal recur h keyA valueA keyB valueB seen depth
  = entry_equal recur' h keyA valueA keyB valueB seen depth.
Proof.
  unfold entry_equal. rewrite recur_same.
  destruct (recur' h keyA keyB seen (depth + 1)) as [[[] ?]| | |]; cbn;
    by rewrite ?recur_same.
Qed.

Lemma find_entry_same h keyA valueA entriesB seen :
  find_entry recur h keyA valueA entriesB seen depth
  = find_entry recur' h keyA valueA entriesB seen depth.
Proof.
  revert seen. induction entriesB as [|entryB rest IH]; intros seen; cbn; [done |].
  destruct (destructure h entryB) as [[keyB valueB]| | |]; cbn; try done.
  rewrite entry_equal_same.
  destruct (entry_equal recur' h keyA valueA keyB valueB seen depth) as [[[] ?]| | |];
    cbn; by rewrite ?IH.
Qed.

Lemma each_entry_same h entriesA mapB seen :
  each_entry recur h entriesA mapB seen depth
  = each_entry recur' h entriesA mapB seen depth.
Proof.
  revert seen. induction entriesA as [|entryA rest IH]; intros seen; cbn; [done |].
  destruct (destructure h entryA) as [[keyA valueA]| | |]; cbn; try done.
  destruct (sources h mapB) as [entriesB| | |]; cbn; try done.
  rewrite find_entry_same.
  destruct (find_entry recur' h keyA valueA entriesB seen depth) as [[[] ?]| | |];
    cbn; by rewrite ?IH.
Qed.

Lemma category_dispatch_same h la a lb b seen :
  category_dispatch options recur h la a lb b seen depth
  = category_dispatch options recur' h la a lb b seen depth.
Proof.
  unfold category_dispatch, compare_arrays, compareMapOptimized, compareObjectOptimized.
  rewrite compareSetOptimized_same.
  repeat case_match; try done.
  - apply count_down_ext. intros. apply recur_same.
  - destruct (sources h a); cbn; [apply each_entry_same | done ..].
  - apply count_down_ext. intros. apply recur_same.
Qed.

Lemma deepEqualCore_body_same h a b seen :
  deepEqualCore_body options recur h a b seen depth
  = deepEqualCore_body options recur' h a b seen depth.
Proof.
  unfold deepEqualCore_body, compare_objects.
  repeat case_match; try done. apply category_dispatch_same.
Qed.
End one_level_down.

(** ** The standalone copy *)

Lemma self_equal_unless_nan x : strict_equal x x = negb (Number_isNaN x).
Proof.
  destruct x as [| | |[]| | | | |]; cbn;
    rewrite ?bool_decide_eq_true_2, ?String.eqb_refl, ?Pos.eqb_refl by done; done.
Qed.

Lemma standalone_body_within_depth options recur h a b seen depth :
  depth ≤ maxDepth options →
  Standalone.deepEqualCore_body options recur h a b seen depth
  = deepEqualCore_body options recur h a b seen depth.
Proof.
  intros Hdepth. unfold Standalone.deepEqualCore_body, deepEqualCore_body.
  rewrite !bool_decide_eq_false_2 by lia.
  destruct (strict_equal a b); [done |].
  assert (String.eqb (typeof a) "number" && String.eqb (typeof b) "number"
          && Number_isNaN a && Number_isNaN b
          = negb (strict_equal a a) && negb (strict_equal b b)) as ->.
  { rewrite !self_equal_unless_nan, !negb_involutive.
    by destruct a as [| | |[]| | | | |], b as [| | |[]| | | | |]. }
  destruct (negb (strict_equal a a) && negb (strict_equal b b)); [done |].
  destruct (Standalone.is_primitive a && Standalone.is_primitive b) eqn:Hprim; [| done].
  rewrite not_both_objects; [done |].
  left. by destruct a.
Qed.

Lemma standalone_core_within_depth options fuel :
  ∀ h a b seen depth,
    depth + fuel ≤ S (maxDepth options) →
    Standalone.deepEqualCore fuel options h a b seen depth
    = deepEqualCore fuel options h a b seen depth.
Proof.
  induction fuel as [|fuel IH]; intros h a b seen depth Hfuel; [done |].
  cbn [Standalone.deepEqualCore deepEqualCore].
  rewrite standalone_body_within_depth by lia.
  apply deepEqualCore_body_same. intros h' x y seen'. apply IH. lia.
Qed.

(** X19.  The standalone copy behind [deepEqualCheck] and [isDeepEqual]
    agree on every comparison that nests at most [maxDepth + 1] calls: the
    order of the depth guard and the fast paths shows only past the depth
    ceiling. *)
Theorem standalone_agrees_within_depth fuel h a b options :
  fuel ≤ S (maxDepth (resolve options)) →
  Standalone.deepEqualCheck fuel h a b options = isDeepEqual fuel h a b options.
Proof.
  intros Hfuel. unfold Standalone.deepEqualCheck, isDeepEqual.
  by rewrite standalone_core_within_depth by lia.
Qed.

Lemma standalone_agrees_within_depth_witness :
  3 ≤ S (maxDepth (resolve no_options))
  ∧ Standalone.deepEqualCheck 3 nested_records (VObj 0) (VObj 2) no_options
    = isDeepEqual 3 nested_records (VObj 0) (VObj 2) no_options.
Proof.
  split; [simpl; lia |].
  apply (standalone_agrees_within_depth 3 nested_records (VObj 0) (VObj 2) no_options).
  simpl; lia.
Defined.

(** X20.  In the standalone copy the depth guard applies to pairs of
    distinct objects only: identical values, and pairs of which one is not
    an object, get the same answer at every depth, past the ceiling too. *)
Theorem standalone_depth_guard_spares_fast_paths options h a b seen depth fuel :
  strict_equal a b = true ∨ is_reference a = false ∨ is_reference b = false →
  Standalone.deepEqualCore (S fuel) options h a b seen depth
  = Returns (primitive_equal options a b, seen).
Proof.
  intros Hfast. cbn [Standalone.deepEqualCore]. unfold Standalone.deepEqualCore_body.
  unfold primitive_equal.
  destruct (strict_equal a b) eqn:Hsame.
  { destruct a as [| | |[]| | | | |], b as [| | |[]| | | | |]; try discriminate; cbn;
      by destruct (strictZero options). }
  destruct Hfast as [?|Hprim]; [done |].
  destruct (String.eqb (typeof a) "number" && String.eqb (typeof b) "number"
            && Number_isNaN a && Number_isNaN b) eqn:Hnan.
  { by destruct a as [| | |[]| | | | |], b as [| | |[]| | | | |]. }
  replace (negb (strict_equal a a) && negb (strict_equal b b)) with false.
  2: { rewrite !self_equal_unless_nan, !negb_involutive.
       by destruct a as [| | |[]| | | | |], b as [| | |[]| | | | |]. }
  cbn [andb]. rewrite not_both_objects by done.
  by repeat case_match.
Qed.

Lemma standalone_depth_guard_spares_fast_paths_witness :
  (strict_equal (VObj 0) (VObj 0) = true ∨ is_reference (VObj 0) = false
   ∨ is_reference (VObj 0) = false)
  ∧ Standalone.deepEqualCore 1 (resolve no_options) [] (VObj 0) (VObj 0) ∅ 2000
    = Returns (true, ∅).
Proof.
  split; [by left |].
  apply (standalone_depth_guard_spares_fast_paths (resolve no_options) []
           (VObj 0) (VObj 0) ∅ 2000 0).
  by left.
Defined.

(** ** Tree-shaped values under the prototype check *)




(** The object at 3 of [unlike_keys], with its non-enumerable property, is
    no such tree, and transitivity fails through it. *)
Lemma hidden_property_breaks_transitivity :
  isDeepEqual 3 unlike_keys (VObj 2) (VObj 3) checking_prototypes = Returns true
  ∧ isDeepEqual 3 unlike_keys (VObj 3) (VObj 4) checking_prototypes = Returns true
  ∧ isDeepEqual 3 unlike_keys (VObj 2) (VObj 4) checking_prototypes = Returns false.
Proof. by vm_compute. Qed.


(** *** Nesting depth *)







(** *** Deep copies *)








(** ** Plain objects of primitives *)

Lemma forallb_pointwise_on {A : Type} (f g : A → bool) (l : list A) :
  (∀ x, x ∈ l → f x = g x) → forallb f l = forallb g l.
Proof.
  induction l as [|x l IH]; intros Hsame; cbn; [done |].
  rewrite Hsame by left. f_equal. apply IH. intros y Hy. apply Hsame. by right.
Qed.

(** X24.  A plain object [a] whose property values are all primitives
    equals an object [b] exactly when [b] has as many enumerable own keys as
    [a], owns every key of [a] (enumerably or not) and holds under every key
    of [a] a value that equals the value of [a] as a primitive; the order of
    the keys plays no part.  So [{x: 1}] equals an object that shows only
    [y: 2] but hides a non-enumerable [x: 1], and does not equal
    [{y: 2}]. *)
Theorem records_of_primitives options h la ctorA fieldsA lb b seen depth fuel :
  let a := OPlain ctorA fieldsA in
  h !! la = Some a → h !! lb = Some b → la ≠ lb →
  depth < maxDepth options →
  (checkPrototypes options = true →
   strict_equal (get a "constructor") (get b "constructor") = true) →
  seen !! la = None →
  generic a = true →
  NoDup (keys a) →
  Forall (λ x, is_reference x = false) fieldsA.*2 →
  deepEqualCore (S (S fuel)) options h (VObj la) (VObj lb) seen depth
  = Returns (bool_decide (length (keys a) = length (keys b))
             && forallb (has_own b) (keys a)
             && forallb (λ '(key, x), primitive_equal options x (get b key)) fieldsA,
             <[la := lb]> seen).
Proof.
  intros a Ha Hb Hdistinct Hdepth Hctor Hfresh Hgeneric HndA Hprim.
  rewrite (deepEqualCore_generic _ _ _ _ _ _ _ _ _ Ha Hb) by (done || lia).
  destruct (bool_decide (length (keys a) = length (keys b))
            && forallb (has_own b) (keys a)); [| done].
  cbn [andb]. subst a.
  assert (∀ key x, (key, x) ∈ fieldsA → get (OPlain ctorA fieldsA) key = x) as Hget.
  { intros key x Hx. cbn [get]. by rewrite (assoc_lookup key x fieldsA). }
  rewrite (each_in_turn_pure _
             (λ key, primitive_equal options (get (OPlain ctorA fieldsA) key) (get b key))).
  - rewrite forallb_reverse. cbn [keys]. do 2 f_equal.
    rewrite <- (forallb_pointwise_on
                  (λ p, primitive_equal options (get (OPlain ctorA fieldsA) p.1)
                          (get b p.1))).
    + generalize (OPlain ctorA fieldsA). intros oa.
      clear. induction fieldsA as [|[key x] rest IH]; [done |]. cbn. by rewrite IH.
    + intros [key x] Hx. cbn [fst]. by rewrite (Hget key x Hx).
  - intros key s Hkey. rewrite elem_of_reverse in Hkey.
    apply list_elem_of_fmap in Hkey as ([key' x] & -> & Hx).
    apply deepEqualCore_primitives; [lia |]. left. cbn [fst]. rewrite (Hget key' x Hx).
    rewrite Forall_forall in Hprim. apply Hprim, list_elem_of_fmap. by exists (key', x).
Qed.

Lemma records_of_primitives_witness :
  unlike_keys !! 2 = Some (OPlain FnObject [("x", int 1)])
  ∧ unlike_keys !! 3 = Some (OHidden FnObject [("y", int 2)] [("x", int 1)])
  ∧ unlike_keys !! 4 = Some (OPlain FnObject [("y", int 2)])
  ∧ 0 < maxDepth with_prototypes
  ∧ (∅ : gmap nat nat) !! 2 = None
  ∧ generic (OPlain FnObject [("x", int 1)]) = true
  ∧ deepEqualCore 2 with_prototypes unlike_keys (VObj 2) (VObj 3) ∅ 0
    = Returns (true, {[2 := 3]})
  ∧ deepEqualCore 2 with_prototypes unlike_keys (VObj 2) (VObj 4) ∅ 0
    = Returns (false, {[2 := 4]}).
Proof.
  assert (NoDup ["x"]) as Hx by (repeat constructor; set_solver).
  assert (Forall (λ x, is_reference x = false) [int 1]) as Hprim
    by (by repeat constructor).
  do 6 (split; [side_condition |]).
  split.
  - etrans;
      [apply (records_of_primitives with_prototypes unlike_keys
                2 FnObject [("x", int 1)]
                3 (OHidden FnObject [("y", int 2)] [("x", int 1)]) ∅ 0 0);
         first [side_condition | discriminate]
      | by vm_compute].
  - etrans;
      [apply (records_of_primitives with_prototypes unlike_keys
                2 FnObject [("x", int 1)]
                4 (OPlain FnObject [("y", int 2)]) ∅ 0 0);
         first [side_condition | discriminate]
      | by vm_compute].
Defined.
